(** * rrg_deg: the single-cell DGE / GSEA explorer (streamlit_app.py)

    A shallow embedding of the dashboard script and the properties of its
    loader, its cascade of filters, its significance labels and its two
    views.

    Data.  A pandas DataFrame is a list of typed rows, one record per
    schema: the CSV files as read ([DgeCsv], [GseaCsv]) and the unified
    tables ([Dge], [Gsea]).  Key columns (dataset, cell_type, comp1, comp2,
    gene, pathway) hold strings and statistic columns hold float64, as in
    the files the script is written for.  A column is the list of one field,
    a boolean mask selects rows by position, and the index is the position.
    float64 cells are Rocq's primitive binary64 floats, so [<] and [>]
    behave as they do in numpy, NaN included.

    Effects.  The script runs in a state-and-exception monad.  The state is
    the Streamlit page (the elements emitted so far) and the store of
    DataFrame objects: a script variable bound to a DataFrame is a reference
    into the store, and a column assignment updates the object in place.
    An uncaught Python exception is a [Raise] result, which ends the run.

    Library behaviour is modelled from the documented contracts:
    - [pd.concat] of an empty list raises ValueError;
    - builtin [min] of an empty iterable raises ValueError;
    - boolean indexing, [sort_values] and [head] return new objects;
    - [sort_values] puts NaN keys last and (default kind quicksort) promises
      nothing about the relative order of equal keys: see [Sorter];
    - [Series.unique] keeps first occurrences; [sorted] orders strings by
      code point, which on UTF-8 encoded strings is the byte order;
    - [st.selectbox] returns the option held by the user, the first option
      when the held position is not in the list, None without options. *)

From Stdlib Require Import ZArith List String Bool Lia Floats.
From stdpp Require Import gmap strings list sorting.

(* Decimal literals denote the nearest binary64 value, as in Python. *)
Set Warnings "-inexact-float,-clear-no-such-hyp".

Local Open Scope string_scope.
Local Open Scope list_scope.

(** ** float64 *)

Module F64.

Definition t := PrimFloat.float.

Definition lt (x y : t) : bool := PrimFloat.ltb x y.
Definition le (x y : t) : bool := PrimFloat.leb x y.
(** Python's [x > y] on floats is IEEE [y < x]. *)
Definition gt (x y : t) : bool := PrimFloat.ltb y x.
Definition ge (x y : t) : bool := PrimFloat.leb y x.
Definition abs (x : t) : t := PrimFloat.abs x.
Definition add (x y : t) : t := PrimFloat.add x y.
Definition neg (x : t) : t := PrimFloat.opp x.
Definition is_nan (x : t) : bool := PrimFloat.is_nan x.
Definition zero : t := 0%float.

(** The order [sort_values] sorts a float column by: ascending, with NaN
    after every number (na_position='last'). *)
Definition nan_last_le (x y : t) : bool := is_nan y || le x y.

End F64.

(** numpy and Python float functions that have no primitive counterpart.
    The script only feeds their results to the plotting layer, so they are
    taken as they come. *)
Class FloatLib := {
  log10 : F64.t → F64.t;          (* np.log10 *)
  pow10 : F64.t → F64.t;          (* 10 ** x *)
  round3 : F64.t → F64.t          (* DataFrame.round(3), per cell *)
}.

(** ** Exceptions and the monad of the script *)

Inductive exn : Type :=
| FileNotFoundError (path : string)
| ValueError (msg : string)
| TypeError (msg : string)
| NameError (msg : string).

Inductive result (A : Type) : Type :=
| Ok (a : A)
| Raise (e : exn).
Arguments Ok {A} a.
Arguments Raise {A} e.

Definition M (S A : Type) : Type := S → result A * S.

Definition ret {S A} (a : A) : M S A := λ s, (Ok a, s).
Definition bind {S A B} (k : A → M S B) (m : M S A) : M S B :=
  λ s, match m s with
       | (Ok a, s') => k a s'
       | (Raise e, s') => (Raise e, s')
       end.
Definition raise {S A} (e : exn) : M S A := λ s, (Raise e, s).
Definition lift {S A} (r : result A) : M S A := λ s, (r, s).
(** try: m / except: handler *)
Definition try_except {S A} (m : M S A) (handler : exn → M S A) : M S A :=
  λ s, match m s with
       | (Ok a, s') => (Ok a, s')
       | (Raise e, s') => handler e s'
       end.
Definition modify {S} (f : S → S) : M S unit := λ s, (Ok tt, f s).

(** With these instances a script reads [x ← m; k] and [m;; k]. *)
#[global] Instance M_ret {S} : MRet (M S) := λ A, @ret S A.
#[global] Instance M_bind {S} : MBind (M S) := λ A B, @bind S A B.

(** ** The tables *)

(** A DGE source file, data/*_degs_wilcoxon.csv, as [pd.read_csv] returns it. *)
Module DgeCsv.
Record row := Row {
  cell : string;
  comp1 : string;
  comp2 : string;
  gene : string;
  avg_log2FC : F64.t;
  p_val_adj : F64.t
}.
(** The frame after [df['dataset'] = name]. *)
Record tagged := Tagged { data : row; dataset : string }.
End DgeCsv.

(** The unified DGE table.  [significant] is the column the volcano tab
    adds to its filtered frame; [None] where the frame has no such cell. *)
Module Dge.
Record row := Row {
  dataset : string;
  cell_type : string;
  comp1 : string;
  comp2 : string;
  gene : string;
  avg_log2FC : F64.t;
  p_val_adj : F64.t;
  significant : option string
}.
Definition set_significant (l : option string) (r : row) : row :=
  Row (dataset r) (cell_type r) (comp1 r) (comp2 r) (gene r)
      (avg_log2FC r) (p_val_adj r) l.
End Dge.

(** A GSEA source file, data/*_gsea.csv. *)
Module GseaCsv.
Record row := Row {
  Term : string;
  path_name : string;
  reference : string;
  NES : F64.t;
  FDR_q_val : F64.t;              (* column 'FDR q-val' *)
  Lead_genes : string;
  Tag_pct : string;               (* column 'Tag %' *)
  Gene_pct : string;              (* column 'Gene %' *)
  cell_type : string;
  comp1 : string;
  comp2 : string
}.
Record tagged := Tagged { data : row; dataset : string }.
End GseaCsv.

(** The unified GSEA table. *)
Module Gsea.
Record row := Row {
  dataset : string;
  cell_type : string;
  comp1 : string;
  comp2 : string;
  pathway : string;
  path_name : string;
  reference : string;
  NES : F64.t;
  padj : F64.t;
  Lead_genes : string;
  Tag_pct : string;
  Gene_pct : string
}.
End Gsea.

(** ** pandas on lists of rows *)

(** [df[c]]: the column of field [c]. *)
Definition col {A B} (c : A → B) (df : list A) : list B := map c df.

(** [series == v] against a widget value; [None] is Python's None, which no
    string equals. *)
Definition Series_eq (s : list string) (v : option string) : list bool :=
  map (λ x, match v with Some y => String.eqb x y | None => false end) s.
Definition Series_lt (s : list F64.t) (c : F64.t) : list bool :=
  map (λ x, F64.lt x c) s.
Definition Series_gt (s : list F64.t) (c : F64.t) : list bool :=
  map (λ x, F64.gt x c) s.
Definition Series_abs (s : list F64.t) : list F64.t := map F64.abs s.
Definition Series_add (s : list F64.t) (c : F64.t) : list F64.t :=
  map (λ x, F64.add x c) s.
(** [m1 & m2] on two masks over the same index. *)
Definition Series_and (m1 m2 : list bool) : list bool := zip_with andb m1 m2.

(** [Series.map(d)] with a dict [d]: a key that [d] lacks maps to no value. *)
Definition Series_map {B} (d : list (bool * B)) (s : list bool) : list (option B) :=
  map (λ k, snd <$> List.find (λ kv, Bool.eqb (fst kv) k) d) s.

(** [df[mask]] and [series[mask]]: the rows whose mask cell is True. *)
Definition getitem_mask {A} (df : list A) (mask : list bool) : list A :=
  map fst (List.filter snd (zip df mask)).

(** [df.head(n)], that is [df.iloc[:n]] with Python's slice bounds. *)
Definition DataFrame_head {A} (n : Z) (df : list A) : list A :=
  if (0 <=? n)%Z then take (Z.to_nat n) df
  else take (length df - Z.to_nat (- n)) df.

(** [pd.concat(frames, ignore_index=True)]. *)
Definition pd_concat {A} (frames : list (list A)) : result (list A) :=
  match frames with
  | [] => Raise (ValueError "No objects to concatenate")
  | _ => Ok (concat frames)
  end.

(** [Series.unique()]: distinct values in order of first appearance. *)
Fixpoint unique_from (seen l : list string) : list string :=
  match l with
  | [] => []
  | x :: l' =>
      if bool_decide (x ∈ seen) then unique_from seen l'
      else x :: unique_from (x :: seen) l'
  end.
Definition unique (l : list string) : list string := unique_from [] l.

(** Python's [sorted] on strings: a stable merge sort by code point order. *)
Definition sorted (l : list string) : list string := merge_sort String.le l.

(** Python's builtin [min] over an iterable of floats. *)
Definition py_min (l : list F64.t) : result F64.t :=
  match l with
  | [] => Raise (ValueError "min() arg is an empty sequence")
  | x :: l' => Ok (fold_left (λ m y, if F64.lt y m then y else m) l' x)
  end.

(** [sort_values(by)] for a float column: the result is a rearrangement of
    the rows, ascending in the key with NaN keys last.  The default kind is
    not stable, so nothing more is fixed. *)
Class Sorter := {
  sort_values : ∀ {A}, (A → F64.t) → list A → list A;
  sort_values_perm : ∀ A (by_ : A → F64.t) (df : list A),
    sort_values by_ df ≡ₚ df;
  sort_values_sorted : ∀ A (by_ : A → F64.t) (df : list A),
    Sorted (λ a b, F64.nan_last_le (by_ a) (by_ b) = true) (sort_values by_ df)
}.

(** ** The page and the object store *)

Inductive ui_event : Type :=
| Warning (msg : string)                       (* st.warning *)
| Heading (text : string)                      (* st.title/header/subheader/markdown *)
| VolcanoChart (x y : list F64.t) (color : list (option string))
               (hover_name : list string) (vlines : list F64.t) (hline : F64.t)
| DgeTable (cells : list (string * F64.t * F64.t))
| GseaChart (x : list F64.t) (y : list string)
| GseaTable (cells : list (string * string * F64.t * F64.t * string * string * string)).

(** DataFrames are objects: a name in the script is a reference into the
    store, and [df[c] = ...] updates the object it refers to. *)
Record world := World {
  dge_objs : gmap positive (list Dge.row);
  gsea_objs : gmap positive (list Gsea.row);
  page : list ui_event
}.

(** Elements appended to the page, in order. *)
Definition add_page (es : list ui_event) (w : world) : world :=
  World (dge_objs w) (gsea_objs w) (page w ++ es).
Definition emit (e : ui_event) : M world unit := modify (add_page [e]).
Definition st_warning (msg : string) : M world unit := emit (Warning msg).
Definition st_heading (text : string) : M world unit := emit (Heading text).

Definition new_dge (df : list Dge.row) : M world positive :=
  λ w, let r := fresh (dom (dge_objs w)) in
       (Ok r, World (<[r := df]> (dge_objs w)) (gsea_objs w) (page w)).
Definition load_dge (r : positive) : M world (list Dge.row) :=
  λ w, match dge_objs w !! r with
       | Some df => (Ok df, w)
       | None => (Raise (NameError "DataFrame"), w)
       end.
Definition store_dge (r : positive) (df : list Dge.row) : M world unit :=
  modify (λ w, World (<[r := df]> (dge_objs w)) (gsea_objs w) (page w)).
Definition new_gsea (df : list Gsea.row) : M world positive :=
  λ w, let r := fresh (dom (gsea_objs w)) in
       (Ok r, World (dge_objs w) (<[r := df]> (gsea_objs w)) (page w)).
Definition load_gsea (r : positive) : M world (list Gsea.row) :=
  λ w, match gsea_objs w !! r with
       | Some df => (Ok df, w)
       | None => (Raise (NameError "DataFrame"), w)
       end.

(** ** load_data *)

(** The CSV files present under data/, by path, already parsed. *)
Record disk := Disk {
  dge_csv : gmap string (list DgeCsv.row);
  gsea_csv : gmap string (list GseaCsv.row)
}.

Definition dge_files : list (string * string) :=
  [ ("cd45pos_rrg", "data/cd45pos_rrgcell_degs_wilcoxon.csv");
    ("cd45pos_jeff", "data/cd45pos_jeffcell_degs_wilcoxon.csv");
    ("cd45neg_rrg", "data/cd45neg_rrgcell_degs_wilcoxon.csv") ].

Definition gsea_files : list (string * string) :=
  [ ("cd45pos_rrg", "data/cd45pos_rrgcell_gsea.csv");
    ("cd45pos_jeff", "data/cd45pos_jeffcell_gsea.csv");
    ("cd45neg_rrg", "data/cd45neg_rrgcell_gsea.csv") ].

Definition pd_read_csv {A} (files : gmap string (list A)) (path : string)
  : M world (list A) :=
  match files !! path with
  | Some df => mret df
  | None => raise (FileNotFoundError path)
  end.

Definition read_data {A} (files : gmap string (list A)) (path : string)
  : M world (option (list A)) :=
  try_except
    (df ← pd_read_csv files path; mret (Some df))
    (λ e, match e with
          | FileNotFoundError _ =>
              st_warning ("File not found: " +:+ path);; mret None
          | _ => raise e
          end).

(** [df['dataset'] = name] *)
Definition dge_set_dataset (name : string) (df : list DgeCsv.row)
  : list DgeCsv.tagged := map (λ r, DgeCsv.Tagged r name) df.
Definition gsea_set_dataset (name : string) (df : list GseaCsv.row)
  : list GseaCsv.tagged := map (λ r, GseaCsv.Tagged r name) df.

(** [.rename(columns={'cell': 'cell_type'})] *)
Definition dge_rename (t : DgeCsv.tagged) : Dge.row :=
  let r := DgeCsv.data t in
  Dge.Row (DgeCsv.dataset t) (DgeCsv.cell r) (DgeCsv.comp1 r) (DgeCsv.comp2 r)
          (DgeCsv.gene r) (DgeCsv.avg_log2FC r) (DgeCsv.p_val_adj r) None.

(** [.rename(columns={'Term': 'pathway', 'FDR q-val': 'padj'})] *)
Definition gsea_rename (t : GseaCsv.tagged) : Gsea.row :=
  let r := GseaCsv.data t in
  Gsea.Row (GseaCsv.dataset t) (GseaCsv.cell_type r) (GseaCsv.comp1 r)
           (GseaCsv.comp2 r) (GseaCsv.Term r) (GseaCsv.path_name r)
           (GseaCsv.reference r) (GseaCsv.NES r) (GseaCsv.FDR_q_val r)
           (GseaCsv.Lead_genes r) (GseaCsv.Tag_pct r) (GseaCsv.Gene_pct r).

(** The loop [for name, path in files.items(): ...] appending to [acc]. *)
Fixpoint load_each {A T} (files : gmap string (list A))
    (set_dataset : string → list A → list T)
    (items : list (string * string)) (acc : list (list T))
  : M world (list (list T)) :=
  match items with
  | [] => mret acc
  | (name, path) :: items' =>
      df ← read_data files path;
      match df with
      | Some df => load_each files set_dataset items' (acc ++ [set_dataset name df])
      | None => load_each files set_dataset items' acc
      end
  end.

Definition load_data (d : disk) : M world (list Dge.row * list Gsea.row) :=
  dge_list ← load_each (dge_csv d) dge_set_dataset dge_files [];
  all_dge ← lift (pd_concat dge_list);
  let all_dge := map dge_rename all_dge in
  gsea_list ← load_each (gsea_csv d) gsea_set_dataset gsea_files [];
  all_gsea ← lift (pd_concat gsea_list);
  let all_gsea := map gsea_rename all_gsea in
  mret (all_dge, all_gsea).

(** ** The sidebar *)

(** What the user holds in each widget: for a selectbox the position picked
    in its option list, for a slider its value. *)
Record widgets := Widgets {
  main_group_ix : nat;
  annotation_ix : nat;
  cell_type_ix : nat;
  comp1_ix : nat;
  comp2_ix : nat;
  logfc_cutoff : F64.t;
  pval_cutoff_log : F64.t;
  gsea_pathway_count : Z
}.

(** [st.selectbox(label, options)]: the held option, the first one when the
    held position is not in the list, and None when there is no option. *)
Definition st_selectbox {A} (options : list A) (ix : nat) : option A :=
  match options !! ix with
  | Some x => Some x
  | None => head options
  end.

(** [choice[1]] on what a selectbox of (label, value) pairs returned. *)
Definition getitem_1 (choice : option (string * string)) : result string :=
  match choice with
  | Some c => Ok (snd c)
  | None => Raise (TypeError "'NoneType' object is not subscriptable")
  end.

Definition main_group_options : list (string * string) :=
  [ ("CD45 Positive", "cd45pos"); ("CD45 Negative", "cd45neg") ].
Definition annotation_options : list (string * string) :=
  [ ("RRG Cell", "rrg"); ("Jeff Cell", "jeff") ].

Definition main_group (w : widgets) : result string :=
  getitem_1 (st_selectbox main_group_options (main_group_ix w)).
Definition annotation_type (w : widgets) : result string :=
  getitem_1 (st_selectbox annotation_options (annotation_ix w)).

Definition selected_dataset (w : widgets) : result string :=
  match main_group w with
  | Raise e => Raise e
  | Ok mg =>
      if String.eqb mg "cd45pos" then
        match annotation_type w with
        | Raise e => Raise e
        | Ok a => Ok ("cd45pos_" +:+ a)
        end
      else Ok "cd45neg_rrg"
  end.

(** ** The cascade of filters over the DGE table *)

Definition dge_subset (all_dge : list Dge.row) (selected_dataset : string)
  : list Dge.row :=
  getitem_mask all_dge (Series_eq (col Dge.dataset all_dge) (Some selected_dataset)).

Definition cell_type_options (all_dge : list Dge.row) (selected_dataset : string)
  : list string :=
  sorted (unique (col Dge.cell_type (dge_subset all_dge selected_dataset))).

Definition dge_cell_type_subset (all_dge : list Dge.row)
    (selected_dataset : string) (cell_type : option string) : list Dge.row :=
  let dge_subset := dge_subset all_dge selected_dataset in
  getitem_mask dge_subset (Series_eq (col Dge.cell_type dge_subset) cell_type).

Definition comp1_options (all_dge : list Dge.row) (selected_dataset : string)
    (cell_type : option string) : list string :=
  sorted (unique (col Dge.comp1
    (dge_cell_type_subset all_dge selected_dataset cell_type))).

Definition comp2_options (all_dge : list Dge.row) (selected_dataset : string)
    (cell_type comp1 : option string) : list string :=
  let s := dge_cell_type_subset all_dge selected_dataset cell_type in
  sorted (unique (col Dge.comp2
    (getitem_mask s (Series_eq (col Dge.comp1 s) comp1)))).

Definition filtered_dge (all_dge : list Dge.row) (selected_dataset : string)
    (cell_type comp1 comp2 : option string) : list Dge.row :=
  let s := dge_cell_type_subset all_dge selected_dataset cell_type in
  getitem_mask s
    (Series_and (Series_eq (col Dge.comp1 s) comp1)
                (Series_eq (col Dge.comp2 s) comp2)).

(** ** Significance *)

Definition significant_column (filtered_dge : list Dge.row)
    (pval_cutoff logfc_cutoff : F64.t) : list (option string) :=
  Series_map [ (true, "Significant"); (false, "Not Significant") ]
    (Series_and
       (Series_lt (col Dge.p_val_adj filtered_dge) pval_cutoff)
       (Series_gt (Series_abs (col Dge.avg_log2FC filtered_dge)) logfc_cutoff)).

(** [filtered_dge['significant'] = s]: cell i of [s] goes to row i; a row
    past the end of [s] gets no value. *)
Fixpoint setitem_significant (df : list Dge.row) (s : list (option string))
  : list Dge.row :=
  match df with
  | [] => []
  | r :: df' =>
      Dge.set_significant (mjoin (head s)) r :: setitem_significant df' (tail s)
  end.

Definition classify (filtered_dge : list Dge.row)
    (pval_cutoff logfc_cutoff : F64.t) : list Dge.row :=
  setitem_significant filtered_dge
    (significant_column filtered_dge pval_cutoff logfc_cutoff).

(** ** The volcano plot's y values *)

(** [min(p[p > 0])] *)
Definition volcano_epsilon (filtered_dge : list Dge.row) : result F64.t :=
  let p := col Dge.p_val_adj filtered_dge in
  py_min (getitem_mask p (Series_gt p F64.zero)).

(** [-np.log10(p + min(p[p > 0]))] *)
Definition volcano_y `{FloatLib} (filtered_dge : list Dge.row)
  : result (list F64.t) :=
  match volcano_epsilon filtered_dge with
  | Raise e => Raise e
  | Ok eps =>
      Ok (map (λ v, F64.neg (log10 v))
              (Series_add (col Dge.p_val_adj filtered_dge) eps))
  end.

(** ** The GSEA view *)

Definition gsea_mask (all_gsea : list Gsea.row) (selected_dataset : string)
    (cell_type comp1 comp2 : option string) : list bool :=
  Series_and
    (Series_and
       (Series_and
          (Series_eq (col Gsea.dataset all_gsea) (Some selected_dataset))
          (Series_eq (col Gsea.cell_type all_gsea) cell_type))
       (Series_eq (col Gsea.comp1 all_gsea) comp1))
    (Series_eq (col Gsea.comp2 all_gsea) comp2).

Definition filtered_gsea `{Sorter} (all_gsea : list Gsea.row)
    (selected_dataset : string) (cell_type comp1 comp2 : option string)
    (gsea_pathway_count : Z) : list Gsea.row :=
  DataFrame_head gsea_pathway_count
    (sort_values Gsea.padj
       (getitem_mask all_gsea
          (gsea_mask all_gsea selected_dataset cell_type comp1 comp2))).

(** ** The script below [load_data()] *)

(** [if c: a else: b] on statements. *)
Definition when_else {S} (c : bool) (a b : M S unit) : M S unit :=
  if c then a else b.

Definition is_empty {A} (df : list A) : bool :=
  match df with [] => true | _ => false end.

Section dashboard.
Context `{FloatLib} `{Sorter}.

(** with tab1: *)
Definition tab1 (dge_cell_type_subset : positive) (comp1 comp2 : option string)
    (w : widgets) (pval_cutoff : F64.t) : M world unit :=
  s ← load_dge dge_cell_type_subset;
  filtered_dge ← new_dge
    (getitem_mask s (Series_and (Series_eq (col Dge.comp1 s) comp1)
                                (Series_eq (col Dge.comp2 s) comp2)));
  df ← load_dge filtered_dge;
  when_else (is_empty df)
    (st_warning "No data available for the current selection.")
    (store_dge filtered_dge
       (setitem_significant df
          (significant_column df pval_cutoff (logfc_cutoff w)));;
     st_heading "Volcano Plot";;
     df ← load_dge filtered_dge;
     y ← lift (volcano_y df);
     emit (VolcanoChart (col Dge.avg_log2FC df) y (col Dge.significant df)
             (col Dge.gene df)
             [logfc_cutoff w; F64.neg (logfc_cutoff w)] (pval_cutoff_log w));;
     st_heading "DGE Results Table";;
     emit (DgeTable
             (map (λ r, (Dge.gene r, round3 (Dge.avg_log2FC r),
                         round3 (Dge.p_val_adj r))) df))).

(** with tab2: *)
Definition tab2 (all_gsea : positive) (selected_dataset : string)
    (cell_type comp1 comp2 : option string) (w : widgets) : M world unit :=
  g ← load_gsea all_gsea;
  masked ← new_gsea
    (getitem_mask g (gsea_mask g selected_dataset cell_type comp1 comp2));
  df ← load_gsea masked;
  ordered ← new_gsea (sort_values Gsea.padj df);
  df ← load_gsea ordered;
  filtered_gsea ← new_gsea (DataFrame_head (gsea_pathway_count w) df);
  df ← load_gsea filtered_gsea;
  when_else (is_empty df)
    (st_warning "No GSEA data available for the current selection.")
    (st_heading "GSEA Pathway Enrichment";;
     emit (GseaChart (col Gsea.NES df) (col Gsea.pathway df));;
     st_heading "GSEA Results Table";;
     emit (GseaTable
             (map (λ r, (Gsea.path_name r, Gsea.reference r,
                         round3 (Gsea.NES r), round3 (Gsea.padj r),
                         Gsea.Lead_genes r, Gsea.Tag_pct r, Gsea.Gene_pct r))
                  df))).

(** Everything after [all_dge, all_gsea = load_data()]. *)
Definition dashboard (all_dge all_gsea : positive) (w : widgets)
  : M world unit :=
  st_heading "Interactive Single-Cell Analysis Explorer";;
  st_heading "Data Selection";;
  selected_dataset ← lift (selected_dataset w);
  df ← load_dge all_dge;
  dge_subset ← new_dge
    (getitem_mask df (Series_eq (col Dge.dataset df) (Some selected_dataset)));
  df ← load_dge dge_subset;
  let cell_type :=
    st_selectbox (sorted (unique (col Dge.cell_type df))) (cell_type_ix w) in
  dge_cell_type_subset ← new_dge
    (getitem_mask df (Series_eq (col Dge.cell_type df) cell_type));
  df ← load_dge dge_cell_type_subset;
  let comp1 :=
    st_selectbox (sorted (unique (col Dge.comp1 df))) (comp1_ix w) in
  with_comp1 ← new_dge
    (getitem_mask df (Series_eq (col Dge.comp1 df) comp1));
  df ← load_dge with_comp1;
  let comp2 :=
    st_selectbox (sorted (unique (col Dge.comp2 df))) (comp2_ix w) in
  st_heading "---";;
  st_heading "Volcano Plot Controls";;
  let pval_cutoff := pow10 (F64.neg (pval_cutoff_log w)) in
  st_heading "---";;
  st_heading "GSEA Plot Controls";;
  tab1 dge_cell_type_subset comp1 comp2 w pval_cutoff;;
  tab2 all_gsea selected_dataset cell_type comp1 comp2 w.

(** The whole script: load, bind the two tables, run the page. *)
Definition streamlit_app (d : disk) (w : widgets) : M world unit :=
  tables ← load_data d;
  all_dge ← new_dge (fst tables);
  all_gsea ← new_gsea (snd tables);
  dashboard all_dge all_gsea w.

End dashboard.

(** * Specification vocabulary and examples *)

(** ** Labels *)

(** The two rows of the specification's example. *)
Definition example_row_A : Dge.row :=
  Dge.Row "cd45pos_rrg" "T" "X" "Y" "A" 1.2%float 0.001%float None.
Definition example_row_B : Dge.row :=
  Dge.Row "cd45pos_rrg" "T" "X" "Y" "B" 0.1%float 0.2%float None.

(** What the vectorised expression computes for one row. *)
Definition row_label (pval_cutoff logfc_cutoff : F64.t) (r : Dge.row) : string :=
  if F64.lt (Dge.p_val_adj r) pval_cutoff
     && F64.gt (F64.abs (Dge.avg_log2FC r)) logfc_cutoff
  then "Significant" else "Not Significant".

(** The label a classified frame carries at position [i]. *)
Definition label_at (df : list Dge.row) (pval_cutoff logfc_cutoff : F64.t)
    (i : nat) : option (option string) :=
  Dge.significant <$> classify df pval_cutoff logfc_cutoff !! i.

(** ** Sources and their union *)

(** The configured sources whose file is present, in the order of the dict,
    each with the frame [pd.read_csv] gives for it. *)
Definition loaded {A} (files : gmap string (list A))
    (items : list (string * string)) : list (string * list A) :=
  omap (λ item, (λ df, (fst item, df)) <$> files !! snd item) items.

(** The warnings for the sources whose file is absent. *)
Definition not_found {A} (files : gmap string (list A))
    (items : list (string * string)) : list ui_event :=
  omap (λ item, match files !! snd item with
                | Some _ => None
                | None => Some (Warning ("File not found: " +:+ snd item))
                end) items.

(** A source row as it stands in the unified table. *)
Definition dge_row_of (name : string) (r : DgeCsv.row) : Dge.row :=
  dge_rename (DgeCsv.Tagged r name).
Definition gsea_row_of (name : string) (r : GseaCsv.row) : Gsea.row :=
  gsea_rename (GseaCsv.Tagged r name).

(** The rows of the sources in [S], source after source, each row tagged
    with the key of its source. *)
Definition union_dge (S : list (string * list DgeCsv.row)) : list Dge.row :=
  concat (map (λ s, map (dge_row_of (fst s)) (snd s)) S).
Definition union_gsea (S : list (string * list GseaCsv.row)) : list Gsea.row :=
  concat (map (λ s, map (gsea_row_of (fst s)) (snd s)) S).

Definition row_count {A} (S : list (string * list A)) : nat :=
  sum_list (map (λ s, length (snd s)) S).

(** The source row a unified row was made from: the [dataset] column
    dropped, the renamed columns under their source names. *)
Definition dge_source_row (r : Dge.row) : DgeCsv.row :=
  DgeCsv.Row (Dge.cell_type r) (Dge.comp1 r) (Dge.comp2 r) (Dge.gene r)
             (Dge.avg_log2FC r) (Dge.p_val_adj r).
Definition gsea_source_row (r : Gsea.row) : GseaCsv.row :=
  GseaCsv.Row (Gsea.pathway r) (Gsea.path_name r) (Gsea.reference r)
              (Gsea.NES r) (Gsea.padj r) (Gsea.Lead_genes r) (Gsea.Tag_pct r)
              (Gsea.Gene_pct r) (Gsea.cell_type r) (Gsea.comp1 r)
              (Gsea.comp2 r).

(** A disk on which one DGE file and one GSEA file are missing. *)
Definition example_dge_csv_A : DgeCsv.row :=
  DgeCsv.Row "T" "X" "Y" "A" 1.2%float 0.001%float.
Definition example_dge_csv_B : DgeCsv.row :=
  DgeCsv.Row "T" "X" "Y" "B" 0.1%float 0.2%float.
Definition example_gsea_csv : GseaCsv.row :=
  GseaCsv.Row "HALLMARK_HYPOXIA" "Hypoxia" "hallmark" 1.7%float 0.01%float
              "A;B" "2/40" "1.5%" "T" "X" "Y".
Definition example_disk : disk :=
  Disk {[ "data/cd45pos_rrgcell_degs_wilcoxon.csv" :=
            [example_dge_csv_A; example_dge_csv_B];
          "data/cd45neg_rrgcell_degs_wilcoxon.csv" := [example_dge_csv_B] ]}
       {[ "data/cd45pos_rrgcell_gsea.csv" := [example_gsea_csv];
          "data/cd45pos_jeffcell_gsea.csv" := [] ]}.
Definition empty_world : world := World ∅ ∅ [].

(** A filtered frame whose only adjusted p-value is 0: wilcoxon tests do
    report p_val_adj = 0 for strongly separated genes. *)
Definition zero_pval_row : Dge.row :=
  Dge.Row "cd45pos_rrg" "T" "X" "Y" "A" 1.2%float 0%float None.
Definition zero_pval_disk : disk :=
  Disk {[ "data/cd45pos_rrgcell_degs_wilcoxon.csv" :=
            [DgeCsv.Row "T" "X" "Y" "A" 1.2%float 0%float] ]}
       {[ "data/cd45pos_rrgcell_gsea.csv" := [example_gsea_csv] ]}.
Definition default_widgets : widgets :=
  Widgets 0 0 0 0 0 0.5%float 1.3010299956639813%float 20.

(** ** Selections and orders *)

(** The order of rows by a float key, NaN keys last. *)
Definition key_le {A} (by_ : A → F64.t) : relation A :=
  λ a b, F64.nan_last_le (by_ a) (by_ b) = true.

(** A GSEA row matches the selection when its four key cells equal the
    four selected values. *)
Definition eq_selected (x : string) (v : option string) : bool :=
  match v with Some y => String.eqb x y | None => false end.
Definition gsea_matches (selected_dataset : string)
    (cell_type comp1 comp2 : option string) (r : Gsea.row) : bool :=
  String.eqb (Gsea.dataset r) selected_dataset
  && eq_selected (Gsea.cell_type r) cell_type
  && eq_selected (Gsea.comp1 r) comp1
  && eq_selected (Gsea.comp2 r) comp2.

(** A GSEA table of seven rows, six of them for the selection
    (cd45pos_rrg, T, X, Y). *)
Definition example_gsea_row (dataset pathway : string) (padj : F64.t)
  : Gsea.row :=
  Gsea.Row dataset "T" "X" "Y" pathway pathway "hallmark" 1.7%float padj
           "A;B" "2/40" "1.5%".
Definition example_all_gsea : list Gsea.row :=
  [ example_gsea_row "cd45pos_rrg" "P1" 0.3%float;
    example_gsea_row "cd45pos_rrg" "P2" 0.01%float;
    example_gsea_row "cd45neg_rrg" "P3" 0.001%float;
    example_gsea_row "cd45pos_rrg" "P4" 0.2%float;
    example_gsea_row "cd45pos_rrg" "P5" 0.05%float;
    example_gsea_row "cd45pos_rrg" "P6" 0.9%float;
    example_gsea_row "cd45pos_rrg" "P7" 0%float ].

(** A DGE table with two comparisons for cell type T and one for B. *)
Definition example_dge_row (dataset cell_type comp1 comp2 gene : string)
  : Dge.row :=
  Dge.Row dataset cell_type comp1 comp2 gene 1.2%float 0.001%float None.
Definition example_all_dge : list Dge.row :=
  [ example_dge_row "cd45pos_rrg" "T" "X" "Z" "A";
    example_dge_row "cd45pos_rrg" "T" "X" "Y" "B";
    example_dge_row "cd45pos_rrg" "T" "X" "Z" "C";
    example_dge_row "cd45pos_rrg" "T" "W" "V" "A";
    example_dge_row "cd45pos_rrg" "B" "X" "U" "A";
    example_dge_row "cd45neg_rrg" "T" "X" "S" "A" ].

(** ** Objects that a run leaves alone *)

(** Every object of [w0] is still in [w], with the rows it had. *)
Definition keeps (w0 w : world) : Prop :=
  dge_objs w0 ⊆ dge_objs w ∧ gsea_objs w0 ⊆ gsea_objs w.

(** [m] leaves the objects of [w0] alone, whether it returns or raises, and
    what it returns satisfies [φ]. *)
Definition preserving (w0 : world) {A} (m : M world A) (φ : A → Prop) : Prop :=
  ∀ w, keeps w0 w →
    keeps w0 (m w).2 ∧ ∀ a, (m w).1 = Ok a → φ a.

(** For running the page on examples: no property reads these three
    functions, so any instance serves. *)
Definition example_floatlib : FloatLib :=
  {| log10 x := x; pow10 x := x; round3 x := x |}.

Definition example_world : world :=
  World {[ 1%positive := example_all_dge ]}
        {[ 1%positive := example_all_gsea ]} [].

(** ** What a run of the page shows *)

(** The page as a function of the two tables and the widgets, written with
    the filters of the cascade; [dashboard_runs] proves the script, which
    goes through the object store, produces exactly this. *)
Section view.
Context `{FloatLib} `{Sorter}.

Definition tab1_view (filtered : list Dge.row) (w : widgets)
    (pval_cutoff : F64.t) : result unit * list ui_event :=
  if is_empty filtered then
    (Ok tt, [Warning "No data available for the current selection."])
  else
    let df := classify filtered pval_cutoff (logfc_cutoff w) in
    match volcano_y df with
    | Raise e => (Raise e, [Heading "Volcano Plot"])
    | Ok y =>
        (Ok tt,
         [ Heading "Volcano Plot";
           VolcanoChart (col Dge.avg_log2FC df) y (col Dge.significant df)
             (col Dge.gene df)
             [logfc_cutoff w; F64.neg (logfc_cutoff w)] (pval_cutoff_log w);
           Heading "DGE Results Table";
           DgeTable (map (λ r, (Dge.gene r, round3 (Dge.avg_log2FC r),
                                round3 (Dge.p_val_adj r))) df) ])
    end.

Definition tab2_view (filtered : list Gsea.row) : list ui_event :=
  if is_empty filtered then
    [Warning "No GSEA data available for the current selection."]
  else
    [ Heading "GSEA Pathway Enrichment";
      GseaChart (col Gsea.NES filtered) (col Gsea.pathway filtered);
      Heading "GSEA Results Table";
      GseaTable
        (map (λ r, (Gsea.path_name r, Gsea.reference r,
                    round3 (Gsea.NES r), round3 (Gsea.padj r),
                    Gsea.Lead_genes r, Gsea.Tag_pct r, Gsea.Gene_pct r))
             filtered) ].

Definition sidebar_headings : list ui_event :=
  [ Heading "Interactive Single-Cell Analysis Explorer";
    Heading "Data Selection" ].
Definition control_headings : list ui_event :=
  [ Heading "---"; Heading "Volcano Plot Controls";
    Heading "---"; Heading "GSEA Plot Controls" ].

Definition dashboard_view (all_dge : list Dge.row) (all_gsea : list Gsea.row)
    (w : widgets) : result unit * list ui_event :=
  match selected_dataset w with
  | Raise e => (Raise e, sidebar_headings)
  | Ok sd =>
      let cell_type :=
        st_selectbox (cell_type_options all_dge sd) (cell_type_ix w) in
      let comp1 :=
        st_selectbox (comp1_options all_dge sd cell_type) (comp1_ix w) in
      let comp2 :=
        st_selectbox (comp2_options all_dge sd cell_type comp1) (comp2_ix w) in
      let t1 :=
        tab1_view (filtered_dge all_dge sd cell_type comp1 comp2) w
                  (pow10 (F64.neg (pval_cutoff_log w))) in
      match fst t1 with
      | Raise e => (Raise e, sidebar_headings ++ control_headings ++ snd t1)
      | Ok _ =>
          (Ok tt,
           sidebar_headings ++ control_headings ++ snd t1 ++
           tab2_view (filtered_gsea all_gsea sd cell_type comp1 comp2
                        (gsea_pathway_count w)))
      end
  end.

End view.

(** ** The selection a run makes *)

(** A DGE row matches the selection when its four key cells equal the four
    selected values. *)
Definition dge_matches (selected_dataset : string)
    (cell_type comp1 comp2 : option string) (r : Dge.row) : bool :=
  String.eqb (Dge.dataset r) selected_dataset
  && eq_selected (Dge.cell_type r) cell_type
  && eq_selected (Dge.comp1 r) comp1
  && eq_selected (Dge.comp2 r) comp2.



(** ** More examples *)

(** A row with a missing adjusted p-value, and row A with its fold change
    negated. *)
Definition nan_row : Dge.row :=
  Dge.Row "cd45pos_rrg" "T" "X" "Y" "A" 1.2%float PrimFloat.nan None.

Definition example_row_A_down : Dge.row :=
  Dge.Row "cd45pos_rrg" "T" "X" "Y" "A2" (-1.2)%float 0.001%float None.



(** * Properties *)

(** ** The order on float64 *)

(** Case analysis on the comparisons inside [SFcompare]. *)
Ltac sf_cmp :=
  repeat match goal with
  | H : context [(?a ?= ?b)%Z] |- _ => destruct (Z.compare_spec a b)
  | |- context [(?a ?= ?b)%Z] => destruct (Z.compare_spec a b)
  | H : context [Pos.compare_cont Eq ?a ?b] |- _ =>
      change (Pos.compare_cont Eq a b) with (Pos.compare a b) in H
  | |- context [Pos.compare_cont Eq ?a ?b] =>
      change (Pos.compare_cont Eq a b) with (Pos.compare a b)
  | H : context [(?a ?= ?b)%positive] |- _ => destruct (Pos.compare_spec a b)
  | |- context [(?a ?= ?b)%positive] => destruct (Pos.compare_spec a b)
  end; simpl in *; try congruence; try lia.

Ltac sf_cases x y z :=
  destruct x as [[]|[]| |[] ? ?], y as [[]|[]| |[] ? ?], z as [[]|[]| |[] ? ?];
  simpl; try congruence; sf_cmp.

Lemma SFltb_leb_trans x y z :
  SFltb x y = true → SFleb y z = true → SFltb x z = true.
Proof. unfold SFltb, SFleb. sf_cases x y z. Qed.

Lemma SFleb_ltb_trans x y z :
  SFleb x y = true → SFltb y z = true → SFltb x z = true.
Proof. unfold SFltb, SFleb. sf_cases x y z. Qed.

Lemma SFleb_trans x y z :
  SFleb x y = true → SFleb y z = true → SFleb x z = true.
Proof. unfold SFleb. sf_cases x y z. Qed.

Lemma SFleb_total x y :
  SFeqb x x = true → SFeqb y y = true → SFleb x y = true ∨ SFleb y x = true.
Proof.
  unfold SFeqb, SFleb.
  destruct x as [[]|[]| |[] ? ?], y as [[]|[]| |[] ? ?];
    simpl; try congruence; auto; sf_cmp; auto.
Qed.

Lemma SFleb_not_nan_r x y : SFleb x y = true → SFeqb y y = true.
Proof.
  unfold SFeqb, SFleb.
  destruct x as [[]|[]| |[] ? ?], y as [[]|[]| |[] ? ?];
    simpl; try congruence; auto; sf_cmp; auto;
    rewrite ?Z.compare_refl, ?Pos.compare_cont_refl; reflexivity.
Qed.

Lemma SFleb_not_nan_l x y : SFleb x y = true → SFeqb x x = true.
Proof.
  unfold SFeqb, SFleb.
  destruct x as [[]|[]| |[] ? ?], y as [[]|[]| |[] ? ?];
    simpl; try congruence; auto; sf_cmp; auto;
    rewrite ?Z.compare_refl, ?Pos.compare_cont_refl; reflexivity.
Qed.

Module F64_facts.

Lemma lt_le_trans x y z :
  F64.lt x y = true → F64.le y z = true → F64.lt x z = true.
Proof.
  unfold F64.lt, F64.le. rewrite !ltb_spec, leb_spec. apply SFltb_leb_trans.
Qed.

Lemma le_lt_trans x y z :
  F64.le x y = true → F64.lt y z = true → F64.lt x z = true.
Proof.
  unfold F64.lt, F64.le. rewrite !ltb_spec, leb_spec. apply SFleb_ltb_trans.
Qed.

Lemma le_trans x y z :
  F64.le x y = true → F64.le y z = true → F64.le x z = true.
Proof. unfold F64.le. rewrite !leb_spec. apply SFleb_trans. Qed.

Lemma le_total x y :
  F64.is_nan x = false → F64.is_nan y = false →
  F64.le x y = true ∨ F64.le y x = true.
Proof.
  unfold F64.is_nan, PrimFloat.is_nan, F64.le.
  rewrite !negb_false_iff, !FloatAxioms.eqb_spec, !leb_spec.
  apply SFleb_total.
Qed.

Lemma le_not_nan x y :
  F64.le x y = true → F64.is_nan x = false ∧ F64.is_nan y = false.
Proof.
  unfold F64.is_nan, PrimFloat.is_nan, F64.le.
  rewrite !negb_false_iff, !FloatAxioms.eqb_spec, !leb_spec.
  eauto using SFleb_not_nan_l, SFleb_not_nan_r.
Qed.

(** NaN-last ascending order is a total preorder. *)
Lemma nan_last_le_trans x y z :
  F64.nan_last_le x y = true → F64.nan_last_le y z = true →
  F64.nan_last_le x z = true.
Proof.
  unfold F64.nan_last_le. rewrite !orb_true_iff.
  intros Hxy [Hz|Hyz]; [by left|].
  destruct (le_not_nan _ _ Hyz) as [Hy _].
  destruct Hxy as [Hy'|Hxy]; [congruence|].
  right. eauto using le_trans.
Qed.

Lemma nan_last_le_total x y :
  F64.nan_last_le x y = true ∨ F64.nan_last_le y x = true.
Proof.
  unfold F64.nan_last_le.
  destruct (F64.is_nan y) eqn:Hy; [by left|].
  destruct (F64.is_nan x) eqn:Hx; [by right|].
  simpl. by apply le_total.
Qed.

(** On numbers it is the IEEE order. *)
Lemma nan_last_le_number x y :
  F64.is_nan y = false → F64.nan_last_le x y = F64.le x y.
Proof. unfold F64.nan_last_le. by intros ->. Qed.

End F64_facts.

(** ** The significance classifier *)

Lemma significant_column_cons r df pc lc :
  significant_column (r :: df) pc lc =
  Some (row_label pc lc r) :: significant_column df pc lc.
Proof.
  unfold significant_column, row_label, Series_map, Series_and, Series_lt,
    Series_gt, Series_abs, col. simpl.
  f_equal.
  by destruct (F64.lt (Dge.p_val_adj r) pc),
              (F64.gt (F64.abs (Dge.avg_log2FC r)) lc).
Qed.

(** The column-wise pipeline labels every row by its own two cells. *)
Lemma classify_map df pc lc :
  classify df pc lc =
  map (λ r, Dge.set_significant (Some (row_label pc lc r)) r) df.
Proof.
  unfold classify. induction df as [|r df IH]; [done|].
  rewrite significant_column_cons. simpl. by rewrite IH.
Qed.

Lemma classify_lookup df pc lc i r :
  df !! i = Some r →
  classify df pc lc !! i =
  Some (Dge.set_significant (Some (row_label pc lc r)) r).
Proof. intros Hi. by rewrite classify_map, list_lookup_fmap, Hi. Qed.

Lemma label_at_lookup df pc lc i r :
  df !! i = Some r → label_at df pc lc i = Some (Some (row_label pc lc r)).
Proof. intros Hi. unfold label_at. by rewrite (classify_lookup _ _ _ _ r). Qed.

Lemma row_label_significant pc lc r :
  row_label pc lc r = "Significant" ↔
  F64.lt (Dge.p_val_adj r) pc = true ∧
  F64.gt (F64.abs (Dge.avg_log2FC r)) lc = true.
Proof.
  unfold row_label. rewrite <- andb_true_iff.
  destruct (_ && _); split; intros; done.
Qed.

Lemma row_label_not_significant pc lc r :
  row_label pc lc r = "Not Significant" ↔
  ¬ (F64.lt (Dge.p_val_adj r) pc = true ∧
     F64.gt (F64.abs (Dge.avg_log2FC r)) lc = true).
Proof.
  unfold row_label. rewrite <- andb_true_iff.
  destruct (_ && _); split; intros; try done.
Qed.


(** C3: a row labelled 'Not Significant' under cutoffs (P, L) stays so
    under any L' >= L with the same P and under any P' <= P with the same L;
    equivalently a row that is 'Significant' under the tighter cutoffs was
    already 'Significant' under (P, L). *)
Theorem significance_monotone (df : list Dge.row) (i : nat) (r : Dge.row)
    (P L : F64.t) :
  df !! i = Some r →
  (label_at df P L i = Some (Some "Not Significant") →
     (∀ L', F64.ge L' L = true →
        label_at df P L' i = Some (Some "Not Significant")) ∧
     (∀ P', F64.le P' P = true →
        label_at df P' L i = Some (Some "Not Significant"))) ∧
  (∀ L', F64.ge L' L = true →
     label_at df P L' i = Some (Some "Significant") →
     label_at df P L i = Some (Some "Significant")) ∧
  (∀ P', F64.le P' P = true →
     label_at df P' L i = Some (Some "Significant") →
     label_at df P L i = Some (Some "Significant")).
Proof.
  intros Hi.
  assert (HL : ∀ L', F64.ge L' L = true →
            row_label P L' r = "Significant" → row_label P L r = "Significant").
  { intros L' HLL'. rewrite !row_label_significant. intros [Hp Hfc].
    split; [done|]. unfold F64.gt, F64.ge in *.
    by apply (F64_facts.le_lt_trans _ L'). }
  assert (HP : ∀ P', F64.le P' P = true →
            row_label P' L r = "Significant" → row_label P L r = "Significant").
  { intros P' HPP'. rewrite !row_label_significant. intros [Hp Hfc].
    split; [|done]. by apply (F64_facts.lt_le_trans _ P'). }
  assert (Hcases : ∀ pc lc, row_label pc lc r = "Significant" ∨
                            row_label pc lc r = "Not Significant").
  { intros pc lc. unfold row_label. destruct (_ && _); auto. }
  repeat split.
  - intros L' HLL'. rewrite !(label_at_lookup _ _ _ _ r) in * by done.
    destruct (Hcases P L') as [Hs| ->]; [|done].
    apply HL in Hs; [|done]. congruence.
  - intros P' HPP'. rewrite !(label_at_lookup _ _ _ _ r) in * by done.
    destruct (Hcases P' L) as [Hs| ->]; [|done].
    apply HP in Hs; [|done]. congruence.
  - intros L' HLL'. rewrite !(label_at_lookup _ _ _ _ r) by done.
    intros [= Hs]. by rewrite (HL L').
  - intros P' HPP'. rewrite !(label_at_lookup _ _ _ _ r) by done.
    intros [= Hs]. by rewrite (HP P').
Qed.

Lemma significance_monotone_witness :
  [example_row_A; example_row_B] !! 1%nat = Some example_row_B ∧
  label_at [example_row_A; example_row_B] 0.05%float 0.5%float 1 =
    Some (Some "Not Significant") ∧
  F64.ge 1.5%float 0.5%float = true ∧
  label_at [example_row_A; example_row_B] 0.05%float 1.5%float 1 =
    Some (Some "Not Significant").
Proof.
  split; [reflexivity|]. split; [by vm_compute|]. split; [by vm_compute|].
  refine (proj1 (proj1 (significance_monotone
    [example_row_A; example_row_B] 1 example_row_B 0.05%float 0.5%float
    _) _) 1.5%float _).
  - reflexivity.
  - by vm_compute.
  - by vm_compute.
Defined.

(** C10: the label of a row is a function of that row's p_val_adj and
    avg_log2FC and of the two cutoffs: rows of two frames that agree on the
    two cells get the same label under the same cutoffs, whatever else the
    frames hold. *)
Theorem significance_noninterference (df1 df2 : list Dge.row) (i j : nat)
    (r1 r2 : Dge.row) (pval_cutoff logfc_cutoff : F64.t) :
  df1 !! i = Some r1 →
  df2 !! j = Some r2 →
  Dge.p_val_adj r1 = Dge.p_val_adj r2 →
  Dge.avg_log2FC r1 = Dge.avg_log2FC r2 →
  label_at df1 pval_cutoff logfc_cutoff i =
  label_at df2 pval_cutoff logfc_cutoff j ∧
  is_Some (label_at df1 pval_cutoff logfc_cutoff i).
Proof.
  intros H1 H2 Hp Hfc.
  rewrite (label_at_lookup _ _ _ _ r1), (label_at_lookup _ _ _ _ r2) by done.
  split; [|by eexists].
  unfold row_label. by rewrite Hp, Hfc.
Qed.

Lemma significance_noninterference_witness :
  label_at [example_row_A; example_row_B] 0.05%float 0.5%float 0 =
  label_at [example_row_B; example_row_B; example_row_A] 0.05%float 0.5%float 2.
Proof.
  refine (proj1 (significance_noninterference
    [example_row_A; example_row_B]
    [example_row_B; example_row_B; example_row_A] 0 2
    example_row_A example_row_A 0.05%float 0.5%float _ _ _ _));
    reflexivity.
Defined.

(** ** The sidebar's dataset choice *)

Lemma main_group_cases w :
  main_group w = Ok "cd45pos" ∨ main_group w = Ok "cd45neg".
Proof.
  unfold main_group. destruct (main_group_ix w) as [|[|n]]; simpl; auto.
Qed.

Lemma annotation_type_cases w :
  annotation_type w = Ok "rrg" ∨ annotation_type w = Ok "jeff".
Proof.
  unfold annotation_type. destruct (annotation_ix w) as [|[|n]]; simpl; auto.
Qed.

(** C7: with main_group = cd45neg the selected dataset is cd45neg_rrg,
    whatever position the annotation widget holds; with main_group = cd45pos
    it is cd45pos_ followed by the chosen annotation type, rrg or jeff.  The
    main group is always one of the two. *)
Theorem selected_dataset_by_group (w : widgets) :
  (main_group w = Ok "cd45neg" →
     selected_dataset w = Ok "cd45neg_rrg" ∧
     ∀ held : nat,
       selected_dataset
         (Widgets (main_group_ix w) held (cell_type_ix w) (comp1_ix w)
            (comp2_ix w) (logfc_cutoff w) (pval_cutoff_log w)
            (gsea_pathway_count w)) = Ok "cd45neg_rrg") ∧
  (main_group w = Ok "cd45pos" →
     ∃ a, annotation_type w = Ok a ∧ (a = "rrg" ∨ a = "jeff") ∧
          selected_dataset w = Ok ("cd45pos_" +:+ a)) ∧
  (main_group w = Ok "cd45pos" ∨ main_group w = Ok "cd45neg").
Proof.
  split; [|split].
  - intros Hmg. split.
    + unfold selected_dataset. by rewrite Hmg.
    + intros held. unfold selected_dataset, main_group in *. simpl.
      by rewrite Hmg.
  - intros Hmg. unfold selected_dataset. rewrite Hmg. simpl.
    destruct (annotation_type_cases w) as [Ha|Ha]; rewrite Ha; eauto.
  - apply main_group_cases.
Qed.

Lemma selected_dataset_by_group_witness :
  selected_dataset (Widgets 1 1 0 0 0 0.5%float 1.5%float 20) = Ok "cd45neg_rrg" ∧
  selected_dataset (Widgets 0 1 0 0 0 0.5%float 1.5%float 20) = Ok "cd45pos_jeff".
Proof.
  split.
  - refine (proj1 (proj1 (selected_dataset_by_group
      (Widgets 1 1 0 0 0 0.5%float 1.5%float 20)) _)). reflexivity.
  - destruct (proj1 (proj2 (selected_dataset_by_group
      (Widgets 0 1 0 0 0 0.5%float 1.5%float 20))) eq_refl) as (a & Ha & _ & Hs).
    injection Ha as <-. exact Hs.
Defined.

(** ** load_data *)

Lemma add_page_nil w : add_page [] w = w.
Proof. destruct w. unfold add_page. simpl. by rewrite app_nil_r. Qed.

Lemma add_page_app es1 es2 w :
  add_page es2 (add_page es1 w) = add_page (es1 ++ es2) w.
Proof. unfold add_page. simpl. by rewrite app_assoc. Qed.

Lemma read_data_eq {A} (files : gmap string (list A)) path w :
  read_data files path w =
  match files !! path with
  | Some df => (Ok (Some df), w)
  | None => (Ok None, add_page [Warning ("File not found: " +:+ path)] w)
  end.
Proof.
  unfold read_data, try_except, pd_read_csv, mbind, M_bind, bind.
  by destruct (files !! path).
Qed.

Lemma load_each_eq {A T} (files : gmap string (list A))
    (set_dataset : string → list A → list T) items acc w :
  load_each files set_dataset items acc w =
  (Ok (acc ++ map (λ s, set_dataset (fst s) (snd s)) (loaded files items)),
   add_page (not_found files items) w).
Proof.
  revert acc w. induction items as [|[name path] items IH]; intros acc w.
  - simpl. by rewrite app_nil_r, add_page_nil.
  - simpl. unfold mbind, M_bind, bind. rewrite read_data_eq.
    unfold loaded, not_found. simpl.
    destruct (files !! path) as [df|]; simpl.
    + rewrite IH. by rewrite <- app_assoc.
    + rewrite IH, add_page_app. done.
Qed.

Lemma concat_set_dataset_dge S :
  map dge_rename (concat (map (λ s, dge_set_dataset (fst s) (snd s)) S)) =
  union_dge S.
Proof.
  unfold union_dge. induction S as [|[name df] S IH]; [done|].
  simpl. rewrite map_app, IH. f_equal.
  unfold dge_set_dataset, dge_row_of. by rewrite map_map.
Qed.

Lemma concat_set_dataset_gsea S :
  map gsea_rename (concat (map (λ s, gsea_set_dataset (fst s) (snd s)) S)) =
  union_gsea S.
Proof.
  unfold union_gsea. induction S as [|[name df] S IH]; [done|].
  simpl. rewrite map_app, IH. f_equal.
  unfold gsea_set_dataset, gsea_row_of. by rewrite map_map.
Qed.

(** What [load_data] does on every disk. *)
Lemma load_data_eq d w :
  load_data d w =
  match loaded (dge_csv d) dge_files, loaded (gsea_csv d) gsea_files with
  | [], _ =>
      (Raise (ValueError "No objects to concatenate"),
       add_page (not_found (dge_csv d) dge_files) w)
  | _ :: _, [] =>
      (Raise (ValueError "No objects to concatenate"),
       add_page (not_found (dge_csv d) dge_files
                 ++ not_found (gsea_csv d) gsea_files) w)
  | (_ :: _) as Sd, (_ :: _) as Sg =>
      (Ok (union_dge Sd, union_gsea Sg),
       add_page (not_found (dge_csv d) dge_files
                 ++ not_found (gsea_csv d) gsea_files) w)
  end.
Proof.
  unfold load_data, mbind, M_bind, bind.
  generalize dge_files gsea_files. intros ditems gitems.
  rewrite load_each_eq. rewrite app_nil_l.
  destruct (loaded (dge_csv d) ditems) as [|sd Sd] eqn:Hd; [done|].
  unfold lift at 1. cbn [pd_concat map].
  rewrite load_each_eq, add_page_app, app_nil_l.
  destruct (loaded (gsea_csv d) gitems) as [|sg Sg] eqn:Hg; [done|].
  unfold lift. cbn [pd_concat map]. unfold mret, M_ret, ret.
  by rewrite <- (concat_set_dataset_dge (sd :: Sd)),
             <- (concat_set_dataset_gsea (sg :: Sg)).
Qed.

Lemma length_union_dge S : length (union_dge S) = row_count S.
Proof.
  unfold union_dge, row_count. induction S as [|s S IH]; [done|].
  simpl. by rewrite length_app, length_map, IH.
Qed.

Lemma length_union_gsea S : length (union_gsea S) = row_count S.
Proof.
  unfold union_gsea, row_count. induction S as [|s S IH]; [done|].
  simpl. by rewrite length_app, length_map, IH.
Qed.

Lemma loaded_keys {A} (files : gmap string (list A)) items s :
  s ∈ loaded files items → ∃ path, (fst s, path) ∈ items ∧ files !! path = Some (snd s).
Proof.
  unfold loaded. rewrite list_elem_of_omap.
  intros ([name path] & Hin & Hs). simpl in Hs.
  destruct (files !! path) as [df|] eqn:Hf; simplify_eq/=. eauto.
Qed.

Lemma dge_row_of_source name r :
  Dge.dataset (dge_row_of name r) = name ∧
  dge_source_row (dge_row_of name r) = r.
Proof. by destruct r. Qed.

Lemma gsea_row_of_source name r :
  Gsea.dataset (gsea_row_of name r) = name ∧
  gsea_source_row (gsea_row_of name r) = r.
Proof. by destruct r. Qed.

Lemma union_dge_dataset {files : gmap string (list DgeCsv.row)} {items} r :
  r ∈ union_dge (loaded files items) → Dge.dataset r ∈ map fst items.
Proof.
  unfold union_dge. rewrite list_elem_of_In, in_concat.
  intros (l & Hl & Hr). apply in_map_iff in Hl as (s & <- & Hs).
  apply in_map_iff in Hr as (r0 & <- & _).
  apply list_elem_of_In, loaded_keys in Hs as (path & Hin & _).
  rewrite (proj1 (dge_row_of_source _ _)).
  apply list_elem_of_fmap. by exists (s.1, path).
Qed.

Lemma union_gsea_dataset {files : gmap string (list GseaCsv.row)} {items} r :
  r ∈ union_gsea (loaded files items) → Gsea.dataset r ∈ map fst items.
Proof.
  unfold union_gsea. rewrite list_elem_of_In, in_concat.
  intros (l & Hl & Hr). apply in_map_iff in Hl as (s & <- & Hs).
  apply in_map_iff in Hr as (r0 & <- & _).
  apply list_elem_of_In, loaded_keys in Hs as (path & Hin & _).
  rewrite (proj1 (gsea_row_of_source _ _)).
  apply list_elem_of_fmap. by exists (s.1, path).
Qed.

(** [load_data] returns tables as soon as each kind has one file present. *)
Lemma load_data_succeeds d w :
  loaded (dge_csv d) dge_files ≠ [] →
  loaded (gsea_csv d) gsea_files ≠ [] →
  load_data d w =
  (Ok (union_dge (loaded (dge_csv d) dge_files),
       union_gsea (loaded (gsea_csv d) gsea_files)),
   add_page (not_found (dge_csv d) dge_files
             ++ not_found (gsea_csv d) gsea_files) w).
Proof.
  intros Hd Hg. rewrite load_data_eq.
  by destruct (loaded (dge_csv d) dge_files), (loaded (gsea_csv d) gsea_files).
Qed.

(** C6: the tables [load_data] returns are the concatenation, in the order
    of the configured sources, of the frames of the sources whose file is
    present: the row count is the sum of their row counts, every source row
    is there as read (its cells under the unified column names), in source
    order, nothing merged or dropped, and every row's dataset is the key of
    the source it came from, one of the configured keys. *)
Theorem load_data_concatenates (d : disk) (w w' : world)
    (all_dge : list Dge.row) (all_gsea : list Gsea.row) :
  load_data d w = (Ok (all_dge, all_gsea), w') →
  all_dge = concat (map (λ s, map (dge_row_of (fst s)) (snd s))
                        (loaded (dge_csv d) dge_files)) ∧
  all_gsea = concat (map (λ s, map (gsea_row_of (fst s)) (snd s))
                         (loaded (gsea_csv d) gsea_files)) ∧
  length all_dge = row_count (loaded (dge_csv d) dge_files) ∧
  length all_gsea = row_count (loaded (gsea_csv d) gsea_files) ∧
  (∀ name r, Dge.dataset (dge_row_of name r) = name ∧
             dge_source_row (dge_row_of name r) = r) ∧
  (∀ name r, Gsea.dataset (gsea_row_of name r) = name ∧
             gsea_source_row (gsea_row_of name r) = r) ∧
  Forall (λ r, Dge.dataset r ∈ map fst dge_files) all_dge ∧
  Forall (λ r, Gsea.dataset r ∈ map fst gsea_files) all_gsea.
Proof.
  rewrite load_data_eq. intros Hload.
  assert (all_dge = union_dge (loaded (dge_csv d) dge_files) ∧
          all_gsea = union_gsea (loaded (gsea_csv d) gsea_files)) as [-> ->].
  { destruct (loaded (dge_csv d) dge_files),
             (loaded (gsea_csv d) gsea_files); by simplify_eq. }
  split_and!; [done|done|apply length_union_dge|apply length_union_gsea
              |apply dge_row_of_source|apply gsea_row_of_source|..].
  - apply Forall_forall. intros r Hr. by apply (union_dge_dataset r Hr).
  - apply Forall_forall. intros r Hr. by apply (union_gsea_dataset r Hr).
Qed.

Lemma load_data_concatenates_witness :
  ∃ all_dge all_gsea w',
    load_data example_disk empty_world = (Ok (all_dge, all_gsea), w') ∧
    length all_dge = row_count (loaded (dge_csv example_disk) dge_files) ∧
    Forall (λ r, Dge.dataset r ∈ map fst dge_files) all_dge.
Proof.
  eexists _, _, _. split; [by vm_compute|].
  destruct (load_data_concatenates example_disk empty_world _ _ _ eq_refl)
    as (_ & _ & Hlen & _ & _ & _ & Hkeys & _).
  split; [exact Hlen|exact Hkeys].
Defined.

(** C5 (what the script does): with none of the six files present,
    [read_data] warns three times for the DGE files and [pd.concat] then
    raises ValueError on the empty list of frames; no table is returned. *)
Theorem load_data_no_files_raises :
  load_data (Disk ∅ ∅) empty_world =
  (Raise (ValueError "No objects to concatenate"),
   World ∅ ∅
     [ Warning "File not found: data/cd45pos_rrgcell_degs_wilcoxon.csv";
       Warning "File not found: data/cd45pos_jeffcell_degs_wilcoxon.csv";
       Warning "File not found: data/cd45neg_rrgcell_degs_wilcoxon.csv" ]).
Proof. by vm_compute. Qed.

(** The same on any disk with no DGE file, and on any with no GSEA file. *)
Lemma load_data_no_source_raises d w :
  loaded (dge_csv d) dge_files = [] ∨ loaded (gsea_csv d) gsea_files = [] →
  (load_data d w).1 = Raise (ValueError "No objects to concatenate").
Proof.
  rewrite load_data_eq.
  by intros [Hd|Hg];
    destruct (loaded (dge_csv d) dge_files), (loaded (gsea_csv d) gsea_files).
Qed.

(** ** The volcano plot's epsilon *)

Lemma getitem_mask_map {A} (p : A → bool) (l : list A) :
  getitem_mask l (map p l) = List.filter p l.
Proof.
  unfold getitem_mask. induction l as [|x l IH]; [done|].
  simpl. destruct (p x); simpl; by rewrite IH.
Qed.



(** C4 (what the script does): on a non-empty filtered frame with no
    adjusted p-value above 0 the epsilon [min(p[p > 0])] is the minimum of
    an empty sequence, Python raises ValueError there, no fallback constant
    is used, and the run of the page stops in the volcano tab. *)
Theorem volcano_all_zero_raises `{FloatLib} `{Sorter} :
  classify [zero_pval_row] 0.05%float 0.5%float ≠ [] ∧
  volcano_y (classify [zero_pval_row] 0.05%float 0.5%float) =
    Raise (ValueError "min() arg is an empty sequence") ∧
  (streamlit_app zero_pval_disk default_widgets empty_world).1 =
    Raise (ValueError "min() arg is an empty sequence").
Proof. split_and!; [done|by vm_compute|by vm_compute]. Qed.

(** ** The GSEA view *)

#[global] Instance key_le_dec {A} (by_ : A → F64.t) : RelDecision (key_le by_).
Proof. intros a b. unfold key_le. apply _. Defined.

#[global] Instance key_le_trans {A} (by_ : A → F64.t) : Transitive (key_le by_).
Proof. intros a b c. apply F64_facts.nan_last_le_trans. Qed.

#[global] Instance key_le_total {A} (by_ : A → F64.t) : Total (key_le by_).
Proof. intros a b. apply F64_facts.nan_last_le_total. Qed.

(** One sorter that meets the contract: a stable merge sort
    (kind='mergesort'). *)
Definition merge_sorter : Sorter :=
  {| sort_values A by_ df := merge_sort (key_le by_) df;
     sort_values_perm A by_ df := merge_sort_Permutation (key_le by_) df;
     sort_values_sorted A by_ df := Sorted_merge_sort (key_le by_) df |}.

Lemma Series_and_map {A} (f g : A → bool) (l : list A) :
  Series_and (map f l) (map g l) = map (λ x, f x && g x) l.
Proof.
  unfold Series_and. induction l as [|x l IH]; [done|]. simpl. by rewrite IH.
Qed.

Lemma Series_eq_col {A} (c : A → string) (df : list A) v :
  Series_eq (col c df) v = map (λ r, eq_selected (c r) v) df.
Proof. unfold Series_eq, col. by rewrite map_map. Qed.


Lemma gsea_mask_matches all_gsea sd ct c1 c2 :
  getitem_mask all_gsea (gsea_mask all_gsea sd ct c1 c2) =
  List.filter (gsea_matches sd ct c1 c2) all_gsea.
Proof.
  unfold gsea_mask. rewrite !Series_eq_col, !Series_and_map.
  apply getitem_mask_map.
Qed.

Lemma DataFrame_head_take {A} (n : Z) (df : list A) :
  (0 ≤ n)%Z → DataFrame_head n df = take (Z.to_nat n) df.
Proof. intros Hn. unfold DataFrame_head. by rewrite (proj2 (Z.leb_le 0 n)). Qed.

Lemma Sorted_key_le_number {A} (by_ : A → F64.t) (l : list A) :
  Forall (λ r, F64.is_nan (by_ r) = false) l →
  Sorted (key_le by_) l →
  Sorted (λ a b, F64.le (by_ a) (by_ b) = true) l.
Proof.
  intros Hnum Hs. induction Hs as [|a l Hs IH Hhd]; [constructor|].
  apply Forall_cons in Hnum as [Ha Hl].
  constructor; [by apply IH|].
  destruct Hhd as [|b l Hab]; constructor.
  apply Forall_cons in Hl as [Hb _].
  unfold key_le in Hab. by rewrite F64_facts.nan_last_le_number in Hab.
Qed.

Section gsea.
Context `{Sorter}.

Lemma sort_values_strongly_sorted {A} (by_ : A → F64.t) df :
  StronglySorted (key_le by_) (sort_values by_ df).
Proof. apply Sorted_StronglySorted; [apply _|]. apply sort_values_sorted. Qed.

(** C2: for a pathway count in [5, 50] the filtered GSEA frame holds
    rows of the GSEA table that match all four selected values, each at
    most as often as it matches there; it is in ascending order of padj
    (NaN last); it has min(count, number of matching rows) rows; and the
    matching rows it leaves out all come at or after every kept row in
    that order, so the kept rows are the first [count] of the sorted
    matching rows. *)
Theorem filtered_gsea_sorted_top (all_gsea : list Gsea.row)
    (selected_dataset : string) (cell_type comp1 comp2 : option string)
    (gsea_pathway_count : Z) :
  (5 ≤ gsea_pathway_count ≤ 50)%Z →
  let matching :=
    List.filter (gsea_matches selected_dataset cell_type comp1 comp2) all_gsea in
  let kept :=
    filtered_gsea all_gsea selected_dataset cell_type comp1 comp2
      gsea_pathway_count in
  Sorted (λ a b, F64.nan_last_le (Gsea.padj a) (Gsea.padj b) = true) kept ∧
  length kept = Nat.min (Z.to_nat gsea_pathway_count) (length matching) ∧
  (length kept ≤ Z.to_nat gsea_pathway_count)%nat ∧
  (∀ r, r ∈ kept → r ∈ all_gsea ∧
          gsea_matches selected_dataset cell_type comp1 comp2 r = true) ∧
  (∃ rest, kept ++ rest ≡ₚ matching ∧
           kept ++ rest = sort_values Gsea.padj matching ∧
           ∀ a b, a ∈ kept → b ∈ rest →
             F64.nan_last_le (Gsea.padj a) (Gsea.padj b) = true) ∧
  (Forall (λ r, F64.is_nan (Gsea.padj r) = false) matching →
     Sorted (λ a b, F64.le (Gsea.padj a) (Gsea.padj b) = true) kept).
Proof.
  intros Hn matching kept.
  assert (Hkept : kept = take (Z.to_nat gsea_pathway_count)
                           (sort_values Gsea.padj matching)).
  { unfold kept, filtered_gsea. rewrite gsea_mask_matches.
    apply DataFrame_head_take. lia. }
  pose proof (sort_values_strongly_sorted Gsea.padj matching) as Hss.
  pose proof (sort_values_perm _ Gsea.padj matching) as Hperm.
  rewrite <- (take_drop (Z.to_nat gsea_pathway_count)
                (sort_values Gsea.padj matching)) in Hss, Hperm.
  rewrite <- Hkept in Hss, Hperm.
  assert (Hsorted : Sorted (key_le Gsea.padj) kept).
  { apply StronglySorted_Sorted. by eapply StronglySorted_app_1_l. }
  assert (Hlen : length kept =
            Nat.min (Z.to_nat gsea_pathway_count) (length matching)).
  { rewrite Hkept, length_take. by rewrite sort_values_perm. }
  assert (Hin : ∀ r, r ∈ kept → r ∈ matching).
  { intros r Hr. rewrite <- Hperm. apply elem_of_app. by left. }
  split_and!.
  - exact Hsorted.
  - exact Hlen.
  - lia.
  - intros r Hr. apply Hin, list_elem_of_In, filter_In in Hr as [Hr Hm].
    split; [by apply list_elem_of_In|done].
  - exists (drop (Z.to_nat gsea_pathway_count) (sort_values Gsea.padj matching)).
    split_and!; [done|by rewrite Hkept, take_drop|].
    intros a b Ha Hb. by eapply (StronglySorted_app_1_elem_of _ _ _ a b Hss).
  - intros Hnum. apply Sorted_key_le_number; [|exact Hsorted].
    apply Forall_forall. intros r Hr.
    by apply (proj1 (Forall_forall _ _) Hnum), Hin.
Qed.

End gsea.

Lemma filtered_gsea_sorted_top_witness :
  (5 ≤ 5 ≤ 50)%Z ∧
  map Gsea.pathway
    (@filtered_gsea merge_sorter example_all_gsea "cd45pos_rrg"
       (Some "T") (Some "X") (Some "Y") 5) = ["P7"; "P2"; "P5"; "P4"; "P1"] ∧
  Sorted (λ a b, F64.nan_last_le (Gsea.padj a) (Gsea.padj b) = true)
    (@filtered_gsea merge_sorter example_all_gsea "cd45pos_rrg"
       (Some "T") (Some "X") (Some "Y") 5).
Proof.
  split; [lia|]. split; [by vm_compute|].
  refine (proj1 (@filtered_gsea_sorted_top merge_sorter example_all_gsea
    "cd45pos_rrg" (Some "T") (Some "X") (Some "Y") 5 _)). lia.
Defined.

(** ** The cascade of option lists *)







Lemma dge_subset_filter all_dge sd :
  dge_subset all_dge sd =
  List.filter (λ r, eq_selected (Dge.dataset r) (Some sd)) all_dge.
Proof. unfold dge_subset. rewrite Series_eq_col. apply getitem_mask_map. Qed.

Lemma dge_cell_type_subset_filter all_dge sd ct :
  dge_cell_type_subset all_dge sd ct =
  List.filter (λ r, eq_selected (Dge.cell_type r) ct) (dge_subset all_dge sd).
Proof.
  unfold dge_cell_type_subset. rewrite Series_eq_col. apply getitem_mask_map.
Qed.






(** ** The source tables are never written *)

Lemma keeps_refl w : keeps w w.
Proof. by split. Qed.

Lemma preserving_weaken w0 {A} (m : M world A) (φ ψ : A → Prop) :
  preserving w0 m φ → (∀ a, φ a → ψ a) → preserving w0 m ψ.
Proof.
  intros Hm Himp w Hw. destruct (Hm w Hw) as [Hk Hφ]. split; [done|eauto].
Qed.

Lemma preserving_ret w0 {A} (a : A) : preserving w0 (mret a) (λ b, b = a).
Proof. intros w Hw. split; [done|]. by intros b [= <-]. Qed.

Lemma preserving_bind w0 {A B} (m : M world A) (k : A → M world B)
    (φ : A → Prop) (ψ : B → Prop) :
  preserving w0 m φ → (∀ a, φ a → preserving w0 (k a) ψ) →
  preserving w0 (m ≫= k) ψ.
Proof.
  intros Hm Hk w Hw. unfold mbind, M_bind, bind.
  destruct (Hm w Hw) as [Hkeep Hφ].
  destruct (m w) as [[a|e] w1]; simpl in *; [|by split].
  by apply (Hk a (Hφ a eq_refl)).
Qed.

Lemma preserving_lift w0 {A} (r : result A) : preserving w0 (lift r) (λ _, True).
Proof. by intros w Hw. Qed.

Lemma preserving_emit w0 e : preserving w0 (emit e) (λ _, True).
Proof. by intros w Hw. Qed.

Lemma preserving_load_dge w0 r : preserving w0 (load_dge r) (λ _, True).
Proof. intros w Hw. unfold load_dge. by destruct (dge_objs w !! r). Qed.

Lemma preserving_load_gsea w0 r : preserving w0 (load_gsea r) (λ _, True).
Proof. intros w Hw. unfold load_gsea. by destruct (gsea_objs w !! r). Qed.

(** A new object gets a reference no object of [w0] has. *)
Lemma preserving_new_dge w0 df :
  preserving w0 (new_dge df) (λ r, dge_objs w0 !! r = None).
Proof.
  intros w [Hd Hg]. unfold new_dge. simpl.
  pose proof (is_fresh (dom (dge_objs w))) as Hfresh.
  apply not_elem_of_dom in Hfresh.
  split.
  - split; [|done]. simpl. etrans; [exact Hd|]. by apply insert_subseteq.
  - intros r [= <-]. by eapply lookup_weaken_None.
Qed.

Lemma preserving_new_gsea w0 df :
  preserving w0 (new_gsea df) (λ r, gsea_objs w0 !! r = None).
Proof.
  intros w [Hd Hg]. unfold new_gsea. simpl.
  pose proof (is_fresh (dom (gsea_objs w))) as Hfresh.
  apply not_elem_of_dom in Hfresh.
  split.
  - split; [done|]. simpl. etrans; [exact Hg|]. by apply insert_subseteq.
  - intros r [= <-]. by eapply lookup_weaken_None.
Qed.

(** Writing to an object that [w0] does not have. *)
Lemma preserving_store_dge w0 r df :
  dge_objs w0 !! r = None → preserving w0 (store_dge r df) (λ _, True).
Proof.
  intros Hr w [Hd Hg]. unfold store_dge, modify. simpl.
  split; [|done]. split; [|done]. simpl.
  apply map_subseteq_spec. intros k v Hk.
  rewrite lookup_insert_ne; [|congruence].
  by eapply lookup_weaken.
Qed.

Lemma preserving_when_else w0 c (a b : M world unit) φ :
  preserving w0 a φ → preserving w0 b φ → preserving w0 (when_else c a b) φ.
Proof. by destruct c. Qed.

(** One step of a script: split a bind, close a primitive. *)
Ltac preserving_step :=
  match goal with
  | |- preserving _ (_ ≫= _) _ => eapply preserving_bind; [|intros ? ?]
  | |- preserving _ (when_else _ _ _) _ => apply preserving_when_else
  | |- preserving _ (new_dge _) _ => apply preserving_new_dge
  | |- preserving _ (new_gsea _) _ => apply preserving_new_gsea
  | |- preserving _ (load_dge _) _ => apply preserving_load_dge
  | |- preserving _ (load_gsea _) _ => apply preserving_load_gsea
  | |- preserving _ (store_dge _ _) _ => by apply preserving_store_dge
  | |- preserving _ (lift _) _ => apply preserving_lift
  | |- preserving _ (emit _) _ => apply preserving_emit
  | |- preserving _ (st_warning _) _ => apply preserving_emit
  | |- preserving _ (st_heading _) _ => apply preserving_emit
  end.

Section frame.
Context `{FloatLib} `{Sorter}.

Lemma preserving_tab1 w0 s comp1 comp2 w pval_cutoff :
  preserving w0 (tab1 s comp1 comp2 w pval_cutoff) (λ _, True).
Proof. unfold tab1. repeat preserving_step. Qed.

Lemma preserving_tab2 w0 g sd ct c1 c2 w :
  preserving w0 (tab2 g sd ct c1 c2 w) (λ _, True).
Proof. unfold tab2. repeat preserving_step. Qed.

Lemma preserving_dashboard w0 all_dge all_gsea w :
  preserving w0 (dashboard all_dge all_gsea w) (λ _, True).
Proof.
  unfold dashboard.
  repeat match goal with
  | |- preserving _ (tab1 _ _ _ _ _) _ => apply preserving_tab1
  | |- preserving _ (tab2 _ _ _ _ _ _) _ => apply preserving_tab2
  | |- _ => preserving_step
  end.
Qed.

(** C9: a run of the page, whether it completes or stops on an exception,
    leaves every DataFrame object that existed before it as it was; in
    particular the objects [all_dge] and [all_gsea] hold the same rows, with
    the same cells, after deriving the filtered DGE frame, assigning its
    'significant' column, and deriving the filtered, sorted and truncated
    GSEA frame. *)
Theorem dashboard_keeps_sources (all_dge all_gsea : positive) (w : widgets)
    (σ : world) (dge : list Dge.row) (gsea : list Gsea.row) :
  dge_objs σ !! all_dge = Some dge →
  gsea_objs σ !! all_gsea = Some gsea →
  dge_objs (dashboard all_dge all_gsea w σ).2 !! all_dge = Some dge ∧
  gsea_objs (dashboard all_dge all_gsea w σ).2 !! all_gsea = Some gsea ∧
  (∀ r df, dge_objs σ !! r = Some df →
           dge_objs (dashboard all_dge all_gsea w σ).2 !! r = Some df) ∧
  (∀ r df, gsea_objs σ !! r = Some df →
           gsea_objs (dashboard all_dge all_gsea w σ).2 !! r = Some df).
Proof.
  intros Hdge Hgsea.
  destruct (preserving_dashboard σ all_dge all_gsea w σ (keeps_refl σ))
    as [[Hd Hg] _].
  split_and!; eauto using lookup_weaken.
Qed.

End frame.

Lemma dashboard_keeps_sources_witness :
  dge_objs (@dashboard example_floatlib merge_sorter 1 1 default_widgets
              example_world).2 !! 1%positive = Some example_all_dge ∧
  gsea_objs (@dashboard example_floatlib merge_sorter 1 1 default_widgets
               example_world).2 !! 1%positive = Some example_all_gsea.
Proof.
  destruct (@dashboard_keeps_sources example_floatlib merge_sorter 1 1
              default_widgets example_world _ _ eq_refl eq_refl)
    as (Hd & Hg & _).
  split; [exact Hd|exact Hg].
Defined.

Lemma run_bind {S A B} (m : M S A) (k : A → M S B) w :
  (m ≫= k) w =
  match m w with
  | (Ok a, w') => k a w'
  | (Raise e, w') => (Raise e, w')
  end.
Proof. reflexivity. Qed.

Lemma run_load_dge r df w :
  dge_objs w !! r = Some df → load_dge r w = (Ok df, w).
Proof. intros Hr. unfold load_dge. by rewrite Hr. Qed.

Lemma run_load_gsea r df w :
  gsea_objs w !! r = Some df → load_gsea r w = (Ok df, w).
Proof. intros Hr. unfold load_gsea. by rewrite Hr. Qed.

Lemma run_new_load_dge {B} df (k : positive → list Dge.row → M world B) w :
  (r ← new_dge df; d ← load_dge r; k r d) w =
  k (fresh (dom (dge_objs w))) df
    (World (<[fresh (dom (dge_objs w)) := df]> (dge_objs w)) (gsea_objs w)
           (page w)).
Proof.
  rewrite run_bind. unfold new_dge. cbn iota beta zeta.
  rewrite run_bind. erewrite run_load_dge; [done|]. apply lookup_insert_eq.
Qed.

Lemma run_new_load_gsea {B} df (k : positive → list Gsea.row → M world B) w :
  (r ← new_gsea df; d ← load_gsea r; k r d) w =
  k (fresh (dom (gsea_objs w))) df
    (World (dge_objs w) (<[fresh (dom (gsea_objs w)) := df]> (gsea_objs w))
           (page w)).
Proof.
  rewrite run_bind. unfold new_gsea. cbn iota beta zeta.
  rewrite run_bind. erewrite run_load_gsea; [done|]. apply lookup_insert_eq.
Qed.

(** The script run against the store shows the page [dashboard_view]. *)
Section runs.
Context `{FloatLib} `{Sorter}.

Lemma tab1_runs s comp1 comp2 w pc σ cs :
  dge_objs σ !! s = Some cs →
  ∃ objs,
    tab1 s comp1 comp2 w pc σ =
    let v := tab1_view
               (getitem_mask cs (Series_and (Series_eq (col Dge.comp1 cs) comp1)
                                            (Series_eq (col Dge.comp2 cs) comp2)))
               w pc in
    (v.1, World objs (gsea_objs σ) (page σ ++ v.2)).
Proof.
  intros Hs. unfold tab1, tab1_view.
  rewrite run_bind, (run_load_dge _ _ _ Hs).
  rewrite run_new_load_dge. cbn [dge_objs gsea_objs page].
  set (fd := getitem_mask cs _).
  set (r := fresh _).
  destruct (is_empty fd) eqn:Hemp; cbn [when_else].
  - by eexists.
  - rewrite run_bind. unfold store_dge at 1, modify.
    rewrite run_bind. unfold st_heading at 1, emit, modify.
    rewrite run_bind. erewrite run_load_dge; [|simpl; apply lookup_insert_eq].
    rewrite run_bind. unfold lift at 1. fold (classify fd pc (logfc_cutoff w)).
    destruct (volcano_y _) as [y|e]; [|by eexists].
    repeat (rewrite run_bind; cbn beta iota zeta).
    unfold add_page. simpl. rewrite <- !app_assoc. by eexists.
Qed.

Lemma tab2_runs g sd ct c1 c2 w σ gs :
  gsea_objs σ !! g = Some gs →
  ∃ objs,
    tab2 g sd ct c1 c2 w σ =
    (Ok tt, World (dge_objs σ) objs
              (page σ ++ tab2_view (filtered_gsea gs sd ct c1 c2
                                      (gsea_pathway_count w)))).
Proof.
  intros Hg. unfold tab2, tab2_view, filtered_gsea.
  rewrite run_bind, (run_load_gsea _ _ _ Hg).
  do 3 (rewrite run_new_load_gsea; cbn [dge_objs gsea_objs page]).
  destruct (is_empty _); cbn [when_else].
  - by eexists.
  - unfold st_heading, emit, modify.
    repeat (rewrite run_bind; cbn beta iota zeta).
    unfold add_page. simpl. rewrite <- !app_assoc. by eexists.
Qed.

Lemma fresh_insert_ne {V} (m : gmap positive V) k v :
  fresh (dom (<[k:=v]> m)) ≠ k.
Proof.
  intros Heq. pose proof (is_fresh (dom (<[k:=v]> m))) as Hf.
  rewrite Heq in Hf. apply Hf. rewrite dom_insert. set_solver.
Qed.

Lemma dashboard_runs a g w σ dge gsea :
  dge_objs σ !! a = Some dge →
  gsea_objs σ !! g = Some gsea →
  ∃ objs1 objs2,
    dashboard a g w σ =
    ((dashboard_view dge gsea w).1,
     World objs1 objs2 (page σ ++ (dashboard_view dge gsea w).2)).
Proof.
  intros Ha Hg. unfold dashboard, dashboard_view.
  unfold st_heading, emit, modify, add_page.
  do 2 (rewrite run_bind; cbn beta iota zeta).
  rewrite run_bind. unfold lift at 1.
  destruct (selected_dataset w) as [sd|e].
  2: { cbn [dge_objs gsea_objs page fst snd]. rewrite <- app_assoc.
       by eexists _, _. }
  cbn [dge_objs gsea_objs page].
  rewrite run_bind. erewrite run_load_dge; [|exact Ha].
  do 3 (rewrite run_new_load_dge; cbn [dge_objs gsea_objs page]).
  do 4 (rewrite run_bind; cbn beta iota zeta).
  cbn [dge_objs gsea_objs page].
  fold (dge_subset dge sd). fold (cell_type_options dge sd).
  set (ct := st_selectbox (cell_type_options dge sd) (cell_type_ix w)).
  fold (dge_cell_type_subset dge sd ct). fold (comp1_options dge sd ct).
  set (c1 := st_selectbox (comp1_options dge sd ct) (comp1_ix w)).
  fold (comp2_options dge sd ct c1).
  set (c2 := st_selectbox (comp2_options dge sd ct c1) (comp2_ix w)).
  set (r1 := fresh (dom (dge_objs σ))).
  set (r2 := fresh (dom (<[r1:=_]> (dge_objs σ)))).
  set (r3 := fresh (dom (<[r2:=_]> _))).
  rewrite run_bind.
  edestruct (tab1_runs r2 c1 c2 w (pow10 (F64.neg (pval_cutoff_log w))))
    as [objs Htab1]; [|rewrite Htab1; clear Htab1].
  { cbn [dge_objs]. rewrite lookup_insert_ne by apply fresh_insert_ne.
    apply lookup_insert_eq. }
  fold (filtered_dge dge sd ct c1 c2).
  cbn [dge_objs gsea_objs page]. cbn zeta.
  destruct (tab1_view _ _ _) as [[[]|e] ev1]; cbn [fst snd].
  2: { rewrite <- !app_assoc. by eexists _, _. }
  edestruct (tab2_runs g sd ct c1 c2 w) as [objs2 Htab2];
    [|rewrite Htab2; clear Htab2].
  { cbn [gsea_objs]. exact Hg. }
  cbn [dge_objs gsea_objs page]. rewrite <- !app_assoc. by eexists _, _.
Qed.

Lemma dashboard_shows a g w σ dge gsea :
  dge_objs σ !! a = Some dge →
  gsea_objs σ !! g = Some gsea →
  (dashboard a g w σ).1 = (dashboard_view dge gsea w).1 ∧
  page (dashboard a g w σ).2 = page σ ++ (dashboard_view dge gsea w).2.
Proof.
  intros Ha Hg.
  destruct (dashboard_runs a g w σ dge gsea Ha Hg) as (o1 & o2 & ->). done.
Qed.

End runs.


(** * Further properties of the script *)

(** ** float64: NaN, sign, and the strict order *)

Lemma SFltb_not_nan x y :
  SFltb x y = true → SFeqb x x = true ∧ SFeqb y y = true.
Proof.
  unfold SFltb, SFeqb.
  destruct x as [[]|[]| |[] ? ?], y as [[]|[]| |[] ? ?];
    simpl; try congruence; intros _;
    rewrite ?Z.compare_refl, ?Pos.compare_cont_refl; by split.
Qed.

Lemma SFltb_false_leb x y :
  SFeqb x x = true → SFeqb y y = true → SFltb x y = false → SFleb y x = true.
Proof.
  unfold SFltb, SFleb, SFeqb.
  destruct x as [[]|[]| |[] ? ?], y as [[]|[]| |[] ? ?];
    simpl; try congruence; intros _ _; sf_cmp.
Qed.

Lemma SFabs_opp x : SFabs (SFopp x) = SFabs x.
Proof. by destruct x. Qed.

Lemma SFabs_nan x : SFeqb (SFabs x) (SFabs x) = SFeqb x x.
Proof.
  unfold SFeqb. destruct x as [[]|[]| |[] ? ?]; simpl; try done;
    by rewrite ?Z.compare_refl, ?Pos.compare_cont_refl.
Qed.

Lemma F64_lt_not_nan x y :
  F64.lt x y = true → F64.is_nan x = false ∧ F64.is_nan y = false.
Proof.
  unfold F64.is_nan, PrimFloat.is_nan, F64.lt.
  rewrite !negb_false_iff, !FloatAxioms.eqb_spec, ltb_spec.
  apply SFltb_not_nan.
Qed.

Lemma F64_lt_false_le x y :
  F64.is_nan x = false → F64.is_nan y = false →
  F64.lt x y = false → F64.le y x = true.
Proof.
  unfold F64.is_nan, PrimFloat.is_nan, F64.lt, F64.le.
  rewrite !negb_false_iff, !FloatAxioms.eqb_spec, ltb_spec, leb_spec.
  apply SFltb_false_leb.
Qed.

Lemma F64_abs_nan x : F64.is_nan (F64.abs x) = F64.is_nan x.
Proof.
  unfold F64.is_nan, PrimFloat.is_nan, F64.abs.
  by rewrite !FloatAxioms.eqb_spec, abs_spec, SFabs_nan.
Qed.

Lemma F64_lt_nan_l x y : F64.is_nan x = true → F64.lt x y = false.
Proof.
  intros Hx. destruct (F64.lt x y) eqn:Hlt; [|done].
  apply F64_lt_not_nan in Hlt as [? _]. congruence.
Qed.

Lemma F64_lt_nan_r x y : F64.is_nan y = true → F64.lt x y = false.
Proof.
  intros Hy. destruct (F64.lt x y) eqn:Hlt; [|done].
  apply F64_lt_not_nan in Hlt as [_ ?]. congruence.
Qed.

(** ** The significance classifier on missing values and on signs *)

(** X8: a NaN among the row's two cells or the two cutoffs makes the row
    'Not Significant': a gene with a missing adjusted p-value or a missing
    fold change is never coloured as significant. *)
Theorem nan_is_not_significant (df : list Dge.row) (i : nat) (r : Dge.row)
    (pval_cutoff logfc_cutoff : F64.t) :
  df !! i = Some r →
  F64.is_nan (Dge.p_val_adj r) = true ∨ F64.is_nan (Dge.avg_log2FC r) = true ∨
  F64.is_nan pval_cutoff = true ∨ F64.is_nan logfc_cutoff = true →
  label_at df pval_cutoff logfc_cutoff i = Some (Some "Not Significant").
Proof.
  intros Hi Hnan. rewrite (label_at_lookup _ _ _ _ r) by done.
  do 2 f_equal. apply row_label_not_significant. intros [Hp Hfc].
  unfold F64.gt in Hfc.
  apply F64_lt_not_nan in Hp as [Hp1 Hp2].
  apply F64_lt_not_nan in Hfc as [Hfc1 Hfc2].
  rewrite F64_abs_nan in Hfc2.
  destruct Hnan as [?|[?|[?|?]]]; congruence.
Qed.

Lemma nan_is_not_significant_witness :
  label_at [nan_row] 0.05%float 0.5%float 0 = Some (Some "Not Significant").
Proof.
  refine (nan_is_not_significant [nan_row] 0 nan_row 0.05%float 0.5%float
            _ _).
  - reflexivity.
  - left. reflexivity.
Defined.

(** X9: the label does not depend on the sign of the fold change: two
    rows with the same adjusted p-value and opposite avg_log2FC get the same
    label, so the volcano plot colours both arms by the same rule. *)
Theorem label_sign_symmetric (df1 df2 : list Dge.row) (i j : nat)
    (r1 r2 : Dge.row) (pval_cutoff logfc_cutoff : F64.t) :
  df1 !! i = Some r1 →
  df2 !! j = Some r2 →
  Dge.p_val_adj r1 = Dge.p_val_adj r2 →
  Dge.avg_log2FC r1 = F64.neg (Dge.avg_log2FC r2) →
  label_at df1 pval_cutoff logfc_cutoff i =
  label_at df2 pval_cutoff logfc_cutoff j.
Proof.
  intros H1 H2 Hp Hfc.
  rewrite (label_at_lookup _ _ _ _ r1), (label_at_lookup _ _ _ _ r2) by done.
  do 2 f_equal. unfold row_label. rewrite Hp, Hfc. do 2 f_equal.
  unfold F64.gt, F64.lt, F64.abs, F64.neg.
  by rewrite !ltb_spec, !abs_spec, opp_spec, SFabs_opp.
Qed.

Lemma label_sign_symmetric_witness :
  label_at [example_row_A_down] 0.05%float 0.5%float 0 =
  label_at [example_row_B; example_row_A] 0.05%float 0.5%float 1.
Proof.
  refine (label_sign_symmetric [example_row_A_down]
            [example_row_B; example_row_A] 0 1 example_row_A_down
            example_row_A 0.05%float 0.5%float _ _ _ _); reflexivity.
Defined.

(** ** The volcano plot's epsilon and y values *)

Lemma SFltb_leb x y : SFltb x y = true → SFleb x y = true.
Proof.
  unfold SFltb, SFleb.
  destruct x as [[]|[]| |[] ? ?], y as [[]|[]| |[] ? ?];
    simpl; try congruence; sf_cmp.
Qed.

Lemma SFleb_refl x : SFeqb x x = true → SFleb x x = true.
Proof.
  unfold SFeqb, SFleb. by destruct (SFcompare x x) as [[]|].
Qed.

Lemma F64_lt_le x y : F64.lt x y = true → F64.le x y = true.
Proof. unfold F64.lt, F64.le. rewrite ltb_spec, leb_spec. apply SFltb_leb. Qed.

Lemma F64_le_refl x : F64.is_nan x = false → F64.le x x = true.
Proof.
  unfold F64.is_nan, PrimFloat.is_nan, F64.le.
  rewrite negb_false_iff, FloatAxioms.eqb_spec, leb_spec. apply SFleb_refl.
Qed.

(** The loop of builtin [min]: on numbers it ends on an element of the
    sequence that is at most every element. *)
Lemma py_min_loop (l : list F64.t) (x : F64.t) :
  Forall (λ y, F64.is_nan y = false) (x :: l) →
  fold_left (λ m y, if F64.lt y m then y else m) l x ∈ x :: l ∧
  Forall (λ y, F64.le (fold_left (λ m y, if F64.lt y m then y else m) l x) y
               = true) (x :: l).
Proof.
  revert x. induction l as [|y l IH]; intros x Hnum.
  - simpl. apply Forall_cons in Hnum as [Hx _]. split; [by left|].
    constructor; [by apply F64_le_refl|constructor].
  - apply Forall_cons in Hnum as [Hx Hnum].
    pose proof Hnum as Hyl. apply Forall_cons in Hyl as [Hy Hl].
    simpl. set (m := if F64.lt y x then y else x).
    assert (Hm : F64.is_nan m = false) by (unfold m; by destruct (F64.lt y x)).
    assert (Hmx : F64.le m x = true).
    { unfold m. destruct (F64.lt y x) eqn:Hlt;
        [by apply F64_lt_le|by apply F64_le_refl]. }
    assert (Hmy : F64.le m y = true).
    { unfold m. destruct (F64.lt y x) eqn:Hlt;
        [by apply F64_le_refl|by apply F64_lt_false_le]. }
    destruct (IH m) as [Hin Hle]; [by constructor|].
    apply Forall_cons in Hle as [Hrm Hrl].
    split.
    + apply elem_of_cons in Hin as [->|Hin].
      * unfold m. destruct (F64.lt y x); set_solver.
      * set_solver.
    + repeat constructor; eauto using F64_facts.le_trans.
Qed.

Lemma positive_cells_filter df :
  getitem_mask (col Dge.p_val_adj df)
    (Series_gt (col Dge.p_val_adj df) F64.zero) =
  List.filter (λ x, F64.gt x F64.zero) (map Dge.p_val_adj df).
Proof. unfold Series_gt, col. apply getitem_mask_map. Qed.

(** X10: the epsilon of the volcano plot, when there is one, is the
    smallest strictly positive adjusted p-value of the filtered frame: it is
    the p_val_adj of one of its rows, it is > 0, and it is <= every
    p_val_adj > 0 of the frame. *)
Theorem volcano_epsilon_least_positive (df : list Dge.row) (eps : F64.t) :
  volcano_epsilon df = Ok eps →
  (∃ r, r ∈ df ∧ Dge.p_val_adj r = eps) ∧
  F64.gt eps F64.zero = true ∧
  (∀ r, r ∈ df → F64.gt (Dge.p_val_adj r) F64.zero = true →
        F64.le eps (Dge.p_val_adj r) = true).
Proof.
  unfold volcano_epsilon. rewrite positive_cells_filter.
  set (pos := List.filter _ _).
  assert (Hpos : ∀ x, x ∈ pos ↔
            (∃ r, r ∈ df ∧ Dge.p_val_adj r = x) ∧ F64.gt x F64.zero = true).
  { intros x. unfold pos.
    rewrite list_elem_of_In, filter_In, <- list_elem_of_In, list_elem_of_fmap.
    naive_solver. }
  destruct pos as [|x l] eqn:Hl; [done|]. simpl. intros [= <-].
  destruct (py_min_loop l x) as [Hin Hle].
  { apply Forall_forall. intros y Hy. apply Hpos in Hy as [_ Hy].
    unfold F64.gt in Hy. by apply F64_lt_not_nan in Hy as [_ ?]. }
  apply Hpos in Hin as [Hrow Hgt]. split_and!; [done|done|].
  intros r Hr Hrpos.
  apply (proj1 (Forall_forall _ _) Hle), Hpos. eauto.
Qed.

Lemma volcano_epsilon_least_positive_witness :
  volcano_epsilon [example_row_B; zero_pval_row; example_row_A] = Ok 0.001%float ∧
  F64.le 0.001%float (Dge.p_val_adj example_row_B) = true.
Proof.
  split; [by vm_compute|].
  refine (proj2 (proj2 (volcano_epsilon_least_positive
    [example_row_B; zero_pval_row; example_row_A] 0.001%float _))
    example_row_B _ _).
  - by vm_compute.
  - set_solver.
  - by vm_compute.
Defined.


(** ** load_data: when it returns, what it warns, what a dataset holds *)


Lemma not_found_paths {A} (files : gmap string (list A)) items :
  not_found files items =
  map (λ path, Warning ("File not found: " +:+ path))
      (List.filter (λ path, bool_decide (files !! path = None))
                   (map snd items)).
Proof.
  unfold not_found. induction items as [|item items IH]; [done|]. cbn.
  case_bool_decide as Hd; destruct (files !! snd item) as [df|] eqn:Hf;
    try done; cbn; by rewrite <- IH.
Qed.


(** X2: when [load_data] returns, it has added to the page one warning
    'File not found: <path>' for each configured file that is absent, the
    DGE paths first and each group in the order of its dict, and nothing
    else; it has changed no DataFrame object. *)
Theorem load_data_warnings (d : disk) (w w' : world)
    (tables : list Dge.row * list Gsea.row) :
  load_data d w = (Ok tables, w') →
  page w' =
    page w ++
    map (λ path, Warning ("File not found: " +:+ path))
        (List.filter (λ path, bool_decide (dge_csv d !! path = None))
                     (map snd dge_files) ++
         List.filter (λ path, bool_decide (gsea_csv d !! path = None))
                     (map snd gsea_files)) ∧
  dge_objs w' = dge_objs w ∧ gsea_objs w' = gsea_objs w.
Proof.
  rewrite load_data_eq, map_app, <- !not_found_paths.
  destruct (loaded (dge_csv d) dge_files), (loaded (gsea_csv d) gsea_files);
    intros [= <- <-]; done.
Qed.

Lemma load_data_warnings_witness :
  ∃ tables w',
    load_data example_disk empty_world = (Ok tables, w') ∧
    page w' =
      [ Warning "File not found: data/cd45pos_jeffcell_degs_wilcoxon.csv";
        Warning "File not found: data/cd45neg_rrgcell_gsea.csv" ].
Proof.
  eexists _, _. split; [by vm_compute|].
  destruct (load_data_warnings example_disk empty_world _ _ eq_refl)
    as (Hpage & _).
  etrans; [exact Hpage|]. by vm_compute.
Defined.

Lemma filter_dataset_rows name n (df : list DgeCsv.row) :
  List.filter (λ r, eq_selected (Dge.dataset r) (Some name))
    (map (dge_row_of n) df) =
  if String.eqb n name then map (dge_row_of n) df else [].
Proof.
  induction df as [|r df IH]; [by destruct (String.eqb n name)|].
  cbn [map List.filter]. rewrite IH.
  change (eq_selected (Dge.dataset (dge_row_of n r)) (Some name))
    with (String.eqb n name).
  by destruct (String.eqb n name).
Qed.

Lemma loaded_cons {A} (files : gmap string (list A)) n p items :
  loaded files ((n, p) :: items) =
  match files !! p with
  | Some df => (n, df) :: loaded files items
  | None => loaded files items
  end.
Proof. unfold loaded. cbn. by destruct (files !! p). Qed.

Lemma union_dge_cons n df S :
  union_dge ((n, df) :: S) = map (dge_row_of n) df ++ union_dge S.
Proof. reflexivity. Qed.

Lemma dge_subset_union_absent (files : gmap string (list DgeCsv.row)) items name :
  name ∉ map fst items →
  dge_subset (union_dge (loaded files items)) name = [].
Proof.
  rewrite dge_subset_filter.
  induction items as [|[n p] items IH]; [done|].
  intros Hnotin. apply not_elem_of_cons in Hnotin as [Hne Hnotin].
  rewrite loaded_cons. destruct (files !! p) as [df|]; [|by apply IH].
  rewrite union_dge_cons, List.filter_app, filter_dataset_rows, IH by done.
  destruct (String.eqb n name) eqn:Heq; [|done].
  apply String.eqb_eq in Heq. simpl in Hne. congruence.
Qed.

Lemma dge_subset_union (files : gmap string (list DgeCsv.row)) items name path :
  NoDup (map fst items) → (name, path) ∈ items →
  dge_subset (union_dge (loaded files items)) name =
  map (dge_row_of name) (default [] (files !! path)).
Proof.
  intros Hnd Hin. induction items as [|[n p] items IH].
  { by apply elem_of_nil in Hin. }
  apply NoDup_cons in Hnd as [Hn Hnd]. simpl in Hn.
  apply elem_of_cons in Hin as [[= <- <-]|Hin].
  - pose proof (dge_subset_union_absent files items name Hn) as Hrest.
    rewrite dge_subset_filter in *. rewrite loaded_cons.
    destruct (files !! path) as [df|]; [|exact Hrest].
    rewrite union_dge_cons, List.filter_app, filter_dataset_rows, Hrest,
      String.eqb_refl.
    by rewrite app_nil_r.
  - assert (n ≠ name) as Hne.
    { intros ->. apply Hn, list_elem_of_fmap. by exists (name, path). }
    specialize (IH Hnd Hin).
    rewrite dge_subset_filter in *. rewrite loaded_cons.
    destruct (files !! p) as [df|]; [|exact IH].
    rewrite union_dge_cons, List.filter_app, filter_dataset_rows, IH.
    destruct (String.eqb n name) eqn:Heq; [|done].
    apply String.eqb_eq in Heq. congruence.
Qed.

Lemma dge_files_keys_NoDup : NoDup (map fst dge_files).
Proof. cbn. repeat constructor; set_solver. Qed.

(** X3: after loading, selecting a dataset gives back the rows of that
    dataset's file: for a configured source (name, path) the rows of the
    unified DGE table whose dataset is [name] are, in order and cell for
    cell, the rows of the file at [path], and there are none when the file
    is absent. *)
Theorem dge_subset_recovers_source (d : disk) (w w' : world)
    (all_dge : list Dge.row) (all_gsea : list Gsea.row) (name path : string) :
  load_data d w = (Ok (all_dge, all_gsea), w') →
  (name, path) ∈ dge_files →
  map dge_source_row (dge_subset all_dge name) =
    default [] (dge_csv d !! path) ∧
  Forall (λ r, Dge.dataset r = name) (dge_subset all_dge name).
Proof.
  rewrite load_data_eq. intros Hload Hin.
  assert (all_dge = union_dge (loaded (dge_csv d) dge_files)) as ->.
  { destruct (loaded (dge_csv d) dge_files),
             (loaded (gsea_csv d) gsea_files); by simplify_eq. }
  rewrite (dge_subset_union _ _ _ path dge_files_keys_NoDup Hin).
  split.
  - rewrite map_map. etrans; [|apply map_id].
    apply map_ext. intros r. apply dge_row_of_source.
  - apply Forall_forall. intros r (r0 & -> & _)%list_elem_of_fmap.
    apply dge_row_of_source.
Qed.

Lemma dge_subset_recovers_source_witness :
  ∃ all_dge all_gsea w',
    load_data example_disk empty_world = (Ok (all_dge, all_gsea), w') ∧
    map dge_source_row (dge_subset all_dge "cd45pos_rrg") =
      [example_dge_csv_A; example_dge_csv_B] ∧
    map dge_source_row (dge_subset all_dge "cd45pos_jeff") = [].
Proof.
  eexists _, _, _. split; [by vm_compute|].
  split.
  - refine (proj1 (dge_subset_recovers_source example_disk empty_world _ _ _
      "cd45pos_rrg" "data/cd45pos_rrgcell_degs_wilcoxon.csv" eq_refl _)).
    set_solver.
  - refine (proj1 (dge_subset_recovers_source example_disk empty_world _ _ _
      "cd45pos_jeff" "data/cd45pos_jeffcell_degs_wilcoxon.csv" eq_refl _)).
    set_solver.
Defined.

(** ** The sidebar against the configured sources *)

Lemma selected_dataset_cases w :
  selected_dataset w = Ok "cd45pos_rrg" ∨
  selected_dataset w = Ok "cd45pos_jeff" ∨
  selected_dataset w = Ok "cd45neg_rrg".
Proof.
  unfold selected_dataset.
  destruct (main_group_cases w) as [-> | ->]; simpl; [|auto].
  destruct (annotation_type_cases w) as [-> | ->]; auto.
Qed.

(** X4: whatever the widgets hold, the dataset the sidebar selects is
    computed without an exception and is a key of both file dicts, so the
    filters on the dataset column always look for a dataset that the loader
    can have produced. *)
Theorem selected_dataset_is_configured (w : widgets) :
  ∃ sd, selected_dataset w = Ok sd ∧
        sd ∈ map fst dge_files ∧ sd ∈ map fst gsea_files.
Proof.
  destruct (selected_dataset_cases w) as [->|[->| ->]];
    eexists; (split; [done|]); cbn; set_solver.
Qed.

(** ** The cascade of selections *)

Lemma filter_filter_andb {A} (f g : A → bool) (l : list A) :
  List.filter f (List.filter g l) = List.filter (λ x, g x && f x) l.
Proof.
  induction l as [|x l IH]; [done|]. simpl.
  destruct (g x); simpl; [destruct (f x)|]; by rewrite IH.
Qed.




Lemma filtered_dge_filter all_dge sd ct c1 c2 :
  filtered_dge all_dge sd ct c1 c2 =
  List.filter (dge_matches sd ct c1 c2) all_dge.
Proof.
  unfold filtered_dge.
  rewrite !Series_eq_col, Series_and_map, getitem_mask_map.
  rewrite dge_cell_type_subset_filter, dge_subset_filter.
  rewrite !filter_filter_andb. apply filter_ext.
  intros r. unfold dge_matches. simpl. by rewrite !andb_assoc.
Qed.

Lemma filtered_dge_elem_of all_dge sd ct c1 c2 r :
  r ∈ filtered_dge all_dge sd ct c1 c2 ↔
  r ∈ all_dge ∧ Dge.dataset r = sd ∧
  ct = Some (Dge.cell_type r) ∧ c1 = Some (Dge.comp1 r) ∧
  c2 = Some (Dge.comp2 r).
Proof.
  rewrite filtered_dge_filter, list_elem_of_In, filter_In, <- list_elem_of_In.
  unfold dge_matches. rewrite !andb_true_iff, String.eqb_eq.
  assert (Hsel : ∀ x v, eq_selected x v = true ↔ v = Some x).
  { intros x [y|]; simpl; [rewrite String.eqb_eq|]; naive_solver. }
  rewrite !Hsel. naive_solver.
Qed.

(** X6: the frame the volcano tab works on holds exactly the rows of the
    DGE table whose dataset, cell_type, comp1 and comp2 equal the four
    selected values, in the order of the table; the three successive
    boolean-mask selections amount to one filter. *)
Theorem filtered_dge_exact (all_dge : list Dge.row) (selected_dataset : string)
    (cell_type comp1 comp2 : option string) :
  filtered_dge all_dge selected_dataset cell_type comp1 comp2 =
    List.filter (dge_matches selected_dataset cell_type comp1 comp2) all_dge ∧
  (∀ r, r ∈ filtered_dge all_dge selected_dataset cell_type comp1 comp2 ↔
        r ∈ all_dge ∧ Dge.dataset r = selected_dataset ∧
        cell_type = Some (Dge.cell_type r) ∧ comp1 = Some (Dge.comp1 r) ∧
        comp2 = Some (Dge.comp2 r)).
Proof.
  split; [apply filtered_dge_filter|]. intros r. apply filtered_dge_elem_of.
Qed.






(** ** A run of the page: when it raises, and what it depends on *)



Section page.
Context `{FloatLib} `{Sorter}.





End page.



(** ** The GSEA tab and the whole script *)

Section whole.
Context `{FloatLib} `{Sorter}.

Lemma filtered_gsea_nil_iff all_gsea sd ct c1 c2 n :
  (1 ≤ n)%Z →
  filtered_gsea all_gsea sd ct c1 c2 n = [] ↔
  Forall (λ r, gsea_matches sd ct c1 c2 r = false) all_gsea.
Proof.
  intros Hn. unfold filtered_gsea.
  rewrite gsea_mask_matches, DataFrame_head_take by lia.
  set (matching := List.filter _ all_gsea).
  assert (Hm : matching = [] ↔
            Forall (λ r, gsea_matches sd ct c1 c2 r = false) all_gsea).
  { unfold matching. induction all_gsea as [|r l IH]; simpl.
    - split; [constructor|done].
    - destruct (gsea_matches sd ct c1 c2 r) eqn:Hr.
      + split; [done|]. intros Hall. apply Forall_cons in Hall as [? _].
        congruence.
      + rewrite IH. split; [by constructor|].
        intros Hall. by apply Forall_cons in Hall as [_ ?]. }
  rewrite <- Hm. split.
  - intros Htake.
    assert (length (sort_values Gsea.padj matching) = 0%nat) as Hlen.
    { apply (f_equal length) in Htake. rewrite length_take in Htake.
      simpl in Htake. lia. }
    rewrite sort_values_perm in Hlen. by apply nil_length_inv.
  - intros Hnil.
    assert (length (sort_values Gsea.padj matching) = 0%nat) as Hlen.
    { by rewrite sort_values_perm, Hnil. }
    apply nil_length_inv in Hlen. rewrite Hlen. apply take_nil.
Qed.

(** X14: for a pathway count in [5, 50] the GSEA tab shows the warning 'No
    GSEA data available for the current selection.', and nothing else,
    exactly when no row of the GSEA table matches the four selected values;
    otherwise it shows a chart and a table with one entry per kept row. *)
Theorem gsea_warning_iff (all_gsea : list Gsea.row) (sd : string)
    (ct c1 c2 : option string) (n : Z) :
  (5 ≤ n ≤ 50)%Z →
  (tab2_view (filtered_gsea all_gsea sd ct c1 c2 n) =
     [Warning "No GSEA data available for the current selection."] ↔
   Forall (λ r, gsea_matches sd ct c1 c2 r = false) all_gsea) ∧
  (Exists (λ r, gsea_matches sd ct c1 c2 r = true) all_gsea →
   ∃ x y cells,
     tab2_view (filtered_gsea all_gsea sd ct c1 c2 n) =
       [ Heading "GSEA Pathway Enrichment"; GseaChart x y;
         Heading "GSEA Results Table"; GseaTable cells ] ∧
     y = map Gsea.pathway (filtered_gsea all_gsea sd ct c1 c2 n) ∧
     length x = length (filtered_gsea all_gsea sd ct c1 c2 n) ∧
     length cells = length (filtered_gsea all_gsea sd ct c1 c2 n)).
Proof.
  intros Hn.
  pose proof (filtered_gsea_nil_iff all_gsea sd ct c1 c2 n ltac:(lia)) as Hnil.
  unfold tab2_view. split.
  - rewrite <- Hnil.
    destruct (filtered_gsea all_gsea sd ct c1 c2 n); simpl; by split.
  - intros Hex.
    destruct (filtered_gsea all_gsea sd ct c1 c2 n) as [|r l] eqn:Hf.
    + exfalso. apply Exists_exists in Hex as (r & Hr & Hm).
      pose proof (proj1 Hnil eq_refl) as Hall.
      rewrite Forall_forall in Hall. specialize (Hall r Hr). congruence.
    + simpl. eexists _, _, _. split; [done|].
      unfold col. simpl. by rewrite !length_map.
Qed.



End whole.

Lemma gsea_warning_iff_witness :
  @tab2_view example_floatlib
    (@filtered_gsea merge_sorter example_all_gsea "cd45pos_jeff"
       (Some "T") (Some "X") (Some "Y") 20) =
  [Warning "No GSEA data available for the current selection."].
Proof.
  apply (@gsea_warning_iff example_floatlib merge_sorter example_all_gsea
           "cd45pos_jeff" (Some "T") (Some "X") (Some "Y") 20); [lia|].
  repeat constructor.
Defined.


